(** * RoSolve client: the task lifecycle of [rosolve/client.py]

    A shallow embedding of [Client] (construction, proxy validation, balance
    lookup and the submit-then-poll routine [solve_funcaptcha]) together with
    the properties of its control flow: what is requested from the service,
    in which order, and which value or exception each run ends with. *)

From Stdlib Require Import ZArith Floats.PrimFloat.
From stdpp Require Import gmap strings list.

#[local] Set Warnings "-register-all".

(** ** Python values

    The values the client handles are decoded JSON bodies and the arguments
    of its methods: [None], booleans, integers, floats, text, lists and
    dictionaries with text keys. *)

Inductive value :=
| JNull
| JBool (b : bool)
| JInt (z : Z)
| JFloat (f : PrimFloat.float)
| JStr (s : string)
| JArr (l : list value)
| JObj (d : gmap string value).

(** ** Exceptions *)

(** Modelled from the spec: the classes of [rosolve/errors.py]
    ([RoSolveException], [InvalidKey], [TaskError], [ProxyError]) are imported
    by the client but their declarations are not part of the sources at hand.
    They are taken as four distinct error kinds, each carrying the argument it
    is raised with, and none of them an [aiohttp.ClientError].  [ClientError]
    stands for [aiohttp.ClientError] (with its message [str(e)]);
    [TimeoutError] is [asyncio.TimeoutError], [JSONDecodeError] is
    [json.JSONDecodeError], and [KeyError], [TypeError] and [RuntimeError] are
    the interpreter's own. *)
Inductive exn :=
| RoSolveException (msg : string)
| InvalidKey (arg : value)
| TaskError (arg : value)
| ProxyError (msg : string)
| ClientError (msg : string)
| KeyError (key : string)
| TypeError
| TimeoutError
| JSONDecodeError (msg : string)
| RuntimeError (msg : string).

Inductive result (A : Type) :=
| Return (a : A)
| Raise (e : exn).
Arguments Return {A} a.
Arguments Raise {A} e.

(** The four error kinds the client documents. *)
Definition documented (e : exn) : bool :=
  match e with
  | RoSolveException _ | InvalidKey _ | TaskError _ | ProxyError _ => true
  | ClientError _ | KeyError _ | TypeError => false
  | TimeoutError | JSONDecodeError _ | RuntimeError _ => false
  end.

(** A failed subscript: a missing key, or a value that cannot be indexed. *)
Definition lookup_error (e : exn) : bool :=
  match e with
  | KeyError _ | TypeError => true
  | _ => false
  end.

(** ** The operators of Python the client uses *)

(** [bool(v)], the test of [x if v else y]. *)
Definition truthy (v : value) : bool :=
  match v with
  | JNull => false
  | JBool b => b
  | JInt z => negb (Z.eqb z 0)
  | JFloat f => negb (PrimFloat.eqb f 0%float)
  | JStr s => negb (String.eqb s "")
  | JArr l => match l with [] => false | _ :: _ => true end
  | JObj d => negb (bool_decide (d = ∅))
  end.

(** [v == s] for a text literal [s]: only equal text compares equal. *)
Definition py_eq_str (v : value) (s : string) : bool :=
  match v with
  | JStr t => String.eqb t s
  | _ => false
  end.

(** [needle in s] on text: the substring test. *)
Fixpoint str_contains (needle s : string) : bool :=
  String.prefix needle s ||
  match s with
  | EmptyString => false
  | String _ s' => str_contains needle s'
  end.

(** [key in data]: a key of a dictionary, an element of a list, a substring
    of a text; the other values are not iterable. *)
Definition py_in (key : string) (data : value) : result bool :=
  match data with
  | JObj d => Return (bool_decide (is_Some (d !! key)))
  | JArr l => Return (existsb (fun x => py_eq_str x key) l)
  | JStr s => Return (str_contains key s)
  | JNull | JBool _ | JInt _ | JFloat _ => Raise TypeError
  end.

(** [data[key]] for a text key: defined on dictionaries only. *)
Definition py_getitem (data : value) (key : string) : result value :=
  match data with
  | JObj d =>
      match d !! key with
      | Some v => Return v
      | None => Raise (KeyError key)
      end
  | _ => Raise TypeError
  end.

(** An [Optional[str]] as a value. *)
Definition of_optional (o : option string) : value :=
  match o with
  | Some s => JStr s
  | None => JNull
  end.

(** ** The client object *)

(** [self.api_key] and [self.proxy]; [self._session] is the transport the
    requests below go through. *)
Module Client.
Record t := {
  api_key : string;
  proxy : option string;
}.
End Client.

(** The [session] argument of the constructor: a session of the caller's,
    or [None]. *)
Inductive session_arg :=
| Supplied
| Absent.

Definition BASE_URL : string := "https://rosolve.pro".

(** The accepted scheme prefixes, in the order they are tried. *)
Definition schemes : list string := ["http://"; "https://"; "socks5://"].

(** [Client._validate_proxy] (lines 40-49): a function of its argument
    alone. *)
Definition _validate_proxy (proxy : value) : result string :=
  match proxy with
  | JStr s =>
      if negb (existsb (fun p => String.prefix p s) schemes)
      then Raise (ProxyError "Proxy must start with http://, https://, or socks5://")
      else Return s
  | _ => Raise (ProxyError "Proxy must be a string")
  end.

(** ** The world outside the client

    Every request goes through the session: [session.get] or [session.post]
    followed by [resp.json()].  The pair either yields the decoded body, or
    raises an [aiohttp.ClientError] (a refused or reset connection, a
    response that is not declared as JSON), or raises something that is not
    one; which of these, and what the service answers, is up to the world,
    whose state [W] is arbitrary. *)

(** What a request raises besides [aiohttp.ClientError]: the total timeout
    of the session ([asyncio.TimeoutError]), a body that [resp.json()] cannot
    decode ([json.JSONDecodeError]), a session that has been closed
    ([RuntimeError]). *)
Inductive failure :=
| TimedOut
| Undecodable (msg : string)
| SessionClosed.

Definition failure_exn (f : failure) : exn :=
  match f with
  | TimedOut => TimeoutError
  | Undecodable msg => JSONDecodeError msg
  | SessionClosed => RuntimeError "Session is closed"
  end.

Inductive request :=
| GET (url : string) (params : gmap string string) (via : option string)
| POST (url : string) (json : value).

Inductive outcome :=
| Body (data : value)
| Fail (msg : string)
| Abort (f : failure).

(** What a run does that can be observed from outside, oldest first. *)
Inductive event :=
| Request (r : request)
| Sleep (seconds : PrimFloat.float).

Record Transport (W : Type) := {
  send : request → W → outcome * W;
  pause : PrimFloat.float → W → W;
}.
Arguments send {W} _ _ _.
Arguments pause {W} _ _ _.

(** [curl_cffi.requests.Session], of which only the headers are read: the
    pairs of a name and a value it holds, in order, the names spelled as they
    were set. *)
Record RobloxSession := {
  headers : list (string * string);
}.

(** [s.lower()] on the letters of a header name. *)
Definition lower_char (c : Ascii.ascii) : Ascii.ascii :=
  let n := Ascii.nat_of_ascii c in
  if Nat.leb 65 n && Nat.leb n 90 then Ascii.ascii_of_nat (n + 32) else c.

Fixpoint lower (s : string) : string :=
  match s with
  | EmptyString => EmptyString
  | String c s' => String (lower_char c) (lower s')
  end.

(** The headers of a session that go by the name [key], whatever the case
    of their letters. *)
Definition named (key : string) (roblox_session : RobloxSession) : list (string * string) :=
  List.filter (λ kv, String.eqb (lower kv.1) (lower key)) (headers roblox_session).

Definition is_poll (e : event) : bool :=
  match e with
  | Request (GET _ _ _) => true
  | _ => false
  end.

Definition is_sleep (e : event) : bool :=
  match e with
  | Sleep _ => true
  | _ => false
  end.

(** Number of status requests, and of delays, in a trace. *)
Definition polls (tr : list event) : nat := length (List.filter is_poll tr).
Definition delays (tr : list event) : nat := length (List.filter is_sleep tr).

(** Exceptions in straight-line code. *)
#[export] Instance result_ret : MRet result := λ A a, Return a.
#[export] Instance result_bind : MBind result := λ A B f r,
  match r with
  | Return a => f a
  | Raise e => Raise e
  end.
#[export] Instance result_fmap : FMap result := λ A B f r,
  match r with
  | Return a => Return (f a)
  | Raise e => Raise e
  end.

Section Runtime.
Context {W : Type}.
(** The session's transport, and [str(v)] for a [v] that is not text (what
    an f-string interpolates). *)
Variable net : Transport W.
Variable py_str : value → string.

Record state := {
  world : W;
  trace : list event;
}.

(** A coroutine of the client: it reads and advances the world, extends the
    trace, and ends with a value or an exception. *)
Definition M (A : Type) : Type := state → result A * state.

#[local] Instance M_ret : MRet M := λ A a s, (Return a, s).
#[local] Instance M_bind : MBind M := λ A B f m s,
  match m s with
  | (Return a, s') => f a s'
  | (Raise e, s') => (Raise e, s')
  end.

Definition raise {A} (e : exn) : M A := λ s, (Raise e, s).

Definition lift {A} (r : result A) : M A := λ s, (r, s).

(** [async with session.get/post(...) as resp: await resp.json()]. *)
Definition request_json (r : request) : M value := λ s,
  let '(o, w) := send net r (world s) in
  let s' := {| world := w; trace := trace s ++ [Request r] |} in
  match o with
  | Body data => (Return data, s')
  | Fail msg => (Raise (ClientError msg), s')
  | Abort f => (Raise (failure_exn f), s')
  end.

(** [await asyncio.sleep(seconds)]. *)
Definition asyncio_sleep (seconds : PrimFloat.float) : M unit := λ s,
  (Return (), {| world := pause net seconds (world s); trace := trace s ++ [Sleep seconds] |}).

(** [try: m  except aiohttp.ClientError as e: h(str(e))]. *)
Definition except_ClientError {A} (m : M A) (h : string → M A) : M A := λ s,
  match m s with
  | (Raise (ClientError msg), s') => h msg s'
  | r => r
  end.

(** [aiohttp.ClientSession()]: the world after the attempt, and the message
    of the [RuntimeError] when the session cannot be created (there is no
    running event loop). *)
Variable new_session : W → option string * W.

(** [session or aiohttp.ClientSession()] (line 26): a session that is passed
    is taken as it is, being an object and so true in a test; otherwise one
    is created.  Either way no request is sent. *)
Definition take_session (session : session_arg) : M unit := λ s,
  match session with
  | Supplied => (Return (), s)
  | Absent =>
      let '(failed, w) := new_session (world s) in
      let s' := {| world := w; trace := trace s |} in
      match failed with
      | None => (Return (), s')
      | Some msg => (Raise (RuntimeError msg), s')
      end
  end.

(** [Client.__init__] (lines 24-27). *)
Definition __init__ (api_key : string) (session : session_arg) (proxy : value) : M Client.t :=
  _ ← take_session session;
  proxy' ← lift (if truthy proxy then Some <$> _validate_proxy proxy else Return None);
  mret {| Client.api_key := api_key; Client.proxy := proxy' |}.

(** [Client.get_balance] (lines 51-78). *)
Definition get_balance (self : Client.t) : M value :=
  except_ClientError
    (data ← request_json (GET (BASE_URL +:+ "/getBalance") {[ "key" := Client.api_key self ]} (Client.proxy self));
     has_error ← lift (py_in "error" data);
     if has_error : bool then
       e ← lift (py_getitem data "error");
       raise (InvalidKey e)
     else
       lift (py_getitem data "balance"))
    (λ msg, raise (RoSolveException ("Connection error: " +:+ msg))).

(** [roblox_session.headers[key]]: names are compared without regard to
    letter case, the values found are joined by a comma and a space, and
    there being none is a [KeyError] on the key as it was asked for. *)
Definition header (roblox_session : RobloxSession) (key : string) : result string :=
  match named key roblox_session with
  | [] => Raise (KeyError key)
  | items => Return (String.concat ", " (snd <$> items))
  end.

(** [solve_funcaptcha], lines 117-145: the body of the task-creation
    request. *)
Definition task_payload (self : Client.t) (roblox_session : RobloxSession)
    (blob : string) (proxy : value) (cookie : string) : result value :=
  solving_proxy ← (if truthy proxy then Some <$> _validate_proxy proxy
                   else Return (Client.proxy self));
  let challenge_info := JObj (list_to_map [
    ("publicKey", JStr "476068BF-9607-4799-B53D-966BE98E2B81");
    ("site", JStr "https://www.roblox.com/");
    ("surl", JStr "https://arkoselabs.roblox.com");
    ("capiMode", JStr "inline");
    ("styleTheme", JStr "default");
    ("languageEnabled", JBool false);
    ("jsfEnabled", JBool false);
    ("extraData", JObj {[ "blob" := JStr blob ]});
    ("ancestorOrigins", JArr [JStr "https://www.roblox.com"; JStr "https://www.roblox.com"]);
    ("treeIndex", JArr [JInt 1; JInt 0]);
    ("treeStructure", JStr "[[],[[]]]");
    ("locationHref", JStr "https://www.roblox.com/arkose/iframe")]) in
  sec_ch_ua ← header roblox_session "sec-ch-ua";
  user_agent ← header roblox_session "user-agent";
  let browser_info := JObj (list_to_map [
    ("Cookie", JStr cookie);
    ("Sec-Ch-Ua", JStr sec_ch_ua);
    ("User-Agent", JStr user_agent)]) in
  mret (JObj (list_to_map [
    ("key", JStr (Client.api_key self));
    ("challengeInfo", challenge_info);
    ("browserInfo", browser_info);
    ("proxy", of_optional solving_proxy)])).

(** [f"{task_id}"]. *)
Definition format (v : value) : string :=
  match v with
  | JStr s => s
  | _ => py_str v
  end.

Definition create_url : string := BASE_URL +:+ "/createTask".
Definition result_url (task_id : value) : string :=
  BASE_URL +:+ "/taskResult/" +:+ format task_id.

(** [solve_funcaptcha], lines 158-171: the loop over [range(max_retries)]
    with [n] iterations left, and the [return None] after it. *)
Fixpoint poll (task_id : value) (retry_delay : PrimFloat.float) (n : nat) : M value :=
  match n with
  | O => mret JNull
  | S n' =>
      _ ← asyncio_sleep retry_delay;
      solution ← request_json (GET (result_url task_id) ∅ None);
      status ← lift (py_getitem solution "status");
      if py_eq_str status "completed" then
        res ← lift (py_getitem solution "result");
        lift (py_getitem res "solution")
      else
        status' ← lift (py_getitem solution "status");
        if py_eq_str status' "failed" then mret JNull
        else poll task_id retry_delay n'
  end.

(** [Client.solve_funcaptcha] (lines 80-171). *)
Definition solve_funcaptcha (self : Client.t) (roblox_session : RobloxSession)
    (blob : string) (proxy : value) (cookie : string)
    (max_retries : Z) (retry_delay : PrimFloat.float) : M value :=
  payload ← lift (task_payload self roblox_session blob proxy cookie);
  data ← request_json (POST create_url payload);
  has_error ← lift (py_in "error" data);
  task_id ← (if has_error : bool then
               e ← lift (py_getitem data "error");
               raise (TaskError e)
             else
               lift (py_getitem data "taskId"));
  poll task_id retry_delay (Z.to_nat max_retries).

(** A run starts in a world [w] with nothing observed yet. *)
Definition start (w : W) : state := {| world := w; trace := [] |}.

End Runtime.

(** ** Vocabulary of the properties *)

(** The status a response body carries is [s]. *)
Definition has_status (s : string) (v : value) : bool :=
  match v with
  | JObj p =>
      match p !! "status" with
      | Some st => py_eq_str st s
      | None => false
      end
  | _ => false
  end.

(** A response that carries a status, neither [completed] nor [failed]. *)
Definition pending (v : value) : bool :=
  match v with
  | JObj p =>
      match p !! "status" with
      | Some st => negb (py_eq_str st "completed") && negb (py_eq_str st "failed")
      | None => false
      end
  | _ => false
  end.

(** The field [result.solution] of a response body, when it is there. *)
Definition nested_solution (v : value) : option value :=
  match v with
  | JObj p =>
      match p !! "result" with
      | Some (JObj r) => r !! "solution"
      | _ => None
      end
  | _ => None
  end.

(** A poll response with the documented fields: a status, and with status
    [completed] a [result.solution]. *)
Definition poll_well_formed (v : value) : bool :=
  match v with
  | JObj p =>
      match p !! "status" with
      | Some st =>
          if py_eq_str st "completed" then bool_decide (is_Some (nested_solution v))
          else true
      | None => false
      end
  | _ => false
  end.

(** A submission response with the documented fields: [error] or [taskId]. *)
Definition submission_well_formed (v : value) : bool :=
  match v with
  | JObj data => bool_decide (is_Some (data !! "error")) || bool_decide (is_Some (data !! "taskId"))
  | _ => false
  end.

(** The text starts with one of the three accepted scheme prefixes. *)
Definition starts_with_scheme (s : string) : Prop :=
  ∃ rest, s = "http://" +:+ rest ∨ s = "https://" +:+ rest ∨ s = "socks5://" +:+ rest.

(** [n] rounds of the polling loop as seen from outside: a delay, then a
    status request. *)
Fixpoint rounds (seconds : PrimFloat.float) (url : string) (n : nat) : list event :=
  match n with
  | O => []
  | S n' => Sleep seconds :: Request (GET url ∅ None) :: rounds seconds url n'
  end.

(** In a trace, every status request comes right after a delay of
    [seconds]; the first event of a trace is therefore not a status
    request. *)
Definition delay_before_every_poll (seconds : PrimFloat.float) (tr : list event) : Prop :=
  ∀ i url params via,
    tr !! i = Some (Request (GET url params via)) →
    ∃ j, i = S j ∧ tr !! j = Some (Sleep seconds).

Section Service.
Context {W : Type}.
Variable net : Transport W.
Variable py_str : value → string.

(** The submission of a run is accepted: the payload is built, sent from
    world [w0], and answered by a dictionary without [error] and with a
    [taskId]; the payload, the task identifier and the world after the
    answer. *)
Definition accepted (self : Client.t) (roblox_session : RobloxSession)
    (blob : string) (proxy : value) (cookie : string) (w0 : W) : option (value * value * W) :=
  match task_payload self roblox_session blob proxy cookie with
  | Return payload =>
      match send net (POST create_url payload) w0 with
      | (Body (JObj data), w1) =>
          match data !! "error", data !! "taskId" with
          | None, Some task_id => Some (payload, task_id, w1)
          | _, _ => None
          end
      | _ => None
      end
  | Raise _ => None
  end.

(** What the service does with one round of the loop started in world [w]:
    its answer to the status request, and the world afterwards. *)
Definition reply (task_id : value) (seconds : PrimFloat.float) (w : W) : outcome :=
  (send net (GET (result_url py_str task_id) ∅ None) (pause net seconds w)).1.

Definition next (task_id : value) (seconds : PrimFloat.float) (w : W) : W :=
  (send net (GET (result_url py_str task_id) ∅ None) (pause net seconds w)).2.

(** From world [w] on, the successive rounds are answered by [rs], in
    order. *)
Fixpoint answers (task_id : value) (seconds : PrimFloat.float) (w : W) (rs : list outcome) : Prop :=
  match rs with
  | [] => True
  | r :: rs' => reply task_id seconds w = r ∧ answers task_id seconds (next task_id seconds w) rs'
  end.

(** The world after [n] rounds. *)
Fixpoint after (task_id : value) (seconds : PrimFloat.float) (n : nat) (w : W) : W :=
  match n with
  | O => w
  | S n' => after task_id seconds n' (next task_id seconds w)
  end.

(** The state after one round of the loop. *)
Definition round (task_id : value) (d : PrimFloat.float) (s : @state W) : @state W :=
  {| world := next task_id d (world s);
     trace := trace s ++ [Sleep d; Request (GET (result_url py_str task_id) ∅ None)] |}.

End Service.

(** ** A scripted service

    The world is the list of answers still to be given to status requests;
    each GET takes the first one ([idle] once the list is used up), every POST
    is answered by [submission], and a delay changes nothing. *)
Definition stub (submission idle : outcome) : Transport (list outcome) := {|
  send r w :=
    match r with
    | POST _ _ => (submission, w)
    | GET _ _ _ =>
        match w with
        | [] => (idle, [])
        | o :: w' => (o, w')
        end
    end;
  pause _ w := w;
|}.

(** A service that gives the same answer to every status request. *)
Definition steady (submission answer : outcome) : Transport unit := {|
  send r w :=
    match r with
    | POST _ _ => (submission, w)
    | GET _ _ _ => (answer, w)
    end;
  pause _ w := w;
|}.

Definition no_loop {W : Type} : W → option string * W :=
  λ w, (Some "no running event loop", w).

(** The bodies of the examples. *)
Definition no_repr : value → string := λ _, "".
Definition status_body (s : string) : value := JObj {[ "status" := JStr s ]}.
Definition completed_body (solution : string) : value :=
  JObj (<[ "status" := JStr "completed" ]> {[ "result" := JObj {[ "solution" := JStr solution ]} ]}).
Definition task_body (task_id : string) : value := JObj {[ "taskId" := JStr task_id ]}.
Definition error_body (msg : string) : value := JObj {[ "error" := JStr msg ]}.
Definition processing : value := status_body "processing".
Definition browser : RobloxSession :=
  {| headers := [("Sec-Ch-Ua", "Chromium"); ("User-Agent", "Mozilla/5.0")] |}.
Definition plain_client : Client.t := {| Client.api_key := "key"; Client.proxy := None |}.
Definition example_payload : value :=
  match task_payload plain_client browser "blob" JNull "" with
  | Return payload => payload
  | Raise _ => JNull
  end.
Definition proxied_client : Client.t :=
  {| Client.api_key := "key"; Client.proxy := Some "http://10.0.0.1:8080" |}.

(** ** The lifetime of the session

    What [close], [__aenter__] and [__aexit__] use of the
    [aiohttp.ClientSession] held in [self._session]: its [closed] attribute
    and its [close()] coroutine, both acting on the world.  The session is an
    object without [__bool__] or [__len__], so [self._session] is true in a
    test. *)

Record SessionHandle (W : Type) := {
  session_closed : W → bool;
  session_close : W → W;
}.
Arguments session_closed {W} _ _.
Arguments session_close {W} _ _.

Definition is_post (e : event) : bool :=
  match e with
  | Request (POST _ _) => true
  | _ => false
  end.

(** Number of task-creation requests in a trace. *)
Definition posts (tr : list event) : nat := length (List.filter is_post tr).

Section Lifetime.
Context {W : Type}.
Variable session : SessionHandle W.

#[local] Existing Instances M_ret M_bind.

(** [await self._session.close()]. *)
Definition session_close_call : @M W unit := λ s,
  (Return (), {| world := session_close session (world s); trace := trace s |}).

(** [Client.close] (lines 35-38). *)
Definition close (self : Client.t) : @M W unit := λ s,
  if true && negb (session_closed session (world s))
  then session_close_call s
  else (Return (), s).

(** [Client.__aenter__] (lines 29-30). *)
Definition __aenter__ (self : Client.t) : @M W Client.t := mret self.

(** [Client.__aexit__] (lines 32-33); the exception in flight, if any, is
    what [exc_val] holds.  The method ends without a [return], that is with
    [None]. *)
Definition __aexit__ (self : Client.t) (exc_val : option exn) : @M W value :=
  _ ← close self;
  mret JNull.

(** [async with self as c: body(c)], the statement the two methods above
    exist for: enter, run the body, and leave through [__aexit__] on both
    ways out; an exception of the body is raised again unless [__aexit__]
    returns a true value.  The result is the body's, or [None] when its
    exception was swallowed. *)
Definition async_with {A} (self : Client.t) (body : Client.t → @M W A) : @M W (option A) := λ s,
  match __aenter__ self s with
  | (Raise e, s1) => (Raise e, s1)
  | (Return c, s1) =>
      match body c s1 with
      | (Return a, s2) =>
          match __aexit__ self None s2 with
          | (Return _, s3) => (Return (Some a), s3)
          | (Raise e, s3) => (Raise e, s3)
          end
      | (Raise e, s2) =>
          match __aexit__ self (Some e) s2 with
          | (Return v, s3) => if truthy v then (Return None, s3) else (Raise e, s3)
          | (Raise e', s3) => (Raise e', s3)
          end
      end
  end.

End Lifetime.

(** A session whose world is its [closed] flag. *)
Definition flag_session : SessionHandle bool := {|
  session_closed w := w;
  session_close _ := true;
|}.

(** A service over that world: it answers as [steady] does and leaves the
    flag alone. *)
Definition flag_service (submission answer : outcome) : Transport bool := {|
  send r w :=
    match r with
    | POST _ _ => (submission, w)
    | GET _ _ _ => (answer, w)
    end;
  pause _ w := w;
|}.

(** ** Counting in traces *)

Lemma polls_app (t1 t2 : list event) : polls (t1 ++ t2) = polls t1 + polls t2.
Proof. unfold polls. by rewrite List.filter_app, length_app. Qed.

Lemma delays_app (t1 t2 : list event) : delays (t1 ++ t2) = delays t1 + delays t2.
Proof. unfold delays. by rewrite List.filter_app, length_app. Qed.

Lemma polls_rounds d url n : polls (rounds d url n) = n.
Proof.
  induction n as [|n IH]; [done|].
  change (rounds d url (S n)) with ([Sleep d; Request (GET url ∅ None)] ++ rounds d url n).
  rewrite polls_app, IH. done.
Qed.

Lemma delays_rounds d url n : delays (rounds d url n) = n.
Proof.
  induction n as [|n IH]; [done|].
  change (rounds d url (S n)) with ([Sleep d; Request (GET url ∅ None)] ++ rounds d url n).
  rewrite delays_app, IH. done.
Qed.

Lemma rounds_snoc d url n :
  rounds d url n ++ [Sleep d; Request (GET url ∅ None)] = rounds d url (S n).
Proof. induction n as [|n IH]; [done|]. simpl in *. by rewrite IH. Qed.

Lemma rounds_snoc_cons e d url n :
  (e :: rounds d url n) ++ [Sleep d; Request (GET url ∅ None)] = e :: rounds d url (S n).
Proof. by rewrite <- app_comm_cons, rounds_snoc. Qed.

Lemma rounds_delay d url n : delay_before_every_poll d (rounds d url n).
Proof.
  induction n as [|n IH]; intros i u ps via Hi; [done|].
  destruct i as [|[|i]]; simpl in Hi.
  - discriminate.
  - exists 0. done.
  - destruct (IH i u ps via Hi) as (j & -> & Hj). exists (S (S j)). done.
Qed.

Lemma delay_after_post d r tr :
  is_poll (Request r) = false →
  delay_before_every_poll d tr → delay_before_every_poll d (Request r :: tr).
Proof.
  intros Hr Htr [|i] u ps via Hi; simpl in Hi.
  - injection Hi as ->. discriminate.
  - destruct (Htr i u ps via Hi) as (j & -> & Hj). exists (S j). done.
Qed.

(** ** Proxy validation and resolution *)

Lemma prefix_append p s : String.prefix p s = true ↔ ∃ rest, s = p +:+ rest.
Proof.
  revert s. induction p as [|a p IH]; intros s.
  - destruct s; (split; [intros _; by eexists|done]).
  - destruct s as [|b s]; cbn.
    + split; [done|]. by intros [rest ?].
    + destruct (Ascii.ascii_dec a b) as [->|Hne].
      * rewrite IH. split; intros [rest H]; exists rest; [by rewrite H|by injection H].
      * split; [done|]. intros [rest [= ? ?]]. done.
Qed.

Lemma scheme_accepted s :
  existsb (λ p, String.prefix p s) schemes = true ↔ starts_with_scheme s.
Proof.
  unfold schemes, starts_with_scheme. cbn [existsb].
  rewrite !orb_true_iff, !prefix_append. split.
  - intros [[r ->]|[[r ->]|[[r ->]|?]]]; [exists r; auto..|done].
  - intros [r [->|[->| ->]]]; eauto 6.
Qed.

Lemma validate_rejects s :
  ¬ starts_with_scheme s → ∃ msg, _validate_proxy (JStr s) = Raise (ProxyError msg).
Proof.
  intros Hs. unfold _validate_proxy.
  destruct (existsb _ schemes) eqn:He; [by apply scheme_accepted in He|].
  by eexists.
Qed.

(** C7. On a text that starts with [http://], [https://] or [socks5://]
    validation returns that same text; on a text that starts with none of
    the three it raises [ProxyError].  Validation is a function of its
    argument alone: it takes no state and sends nothing. *)
Theorem validate_proxy_by_scheme :
  (∀ s, starts_with_scheme s → _validate_proxy (JStr s) = Return s) ∧
  (∀ s, ¬ starts_with_scheme s → ∃ msg, _validate_proxy (JStr s) = Raise (ProxyError msg)).
Proof.
  split; intros s Hs.
  - apply scheme_accepted in Hs. unfold _validate_proxy. by rewrite Hs.
  - by apply validate_rejects.
Qed.

Lemma validate_proxy_witness :
  _validate_proxy (JStr "socks5://127.0.0.1:9050") = Return "socks5://127.0.0.1:9050"
  ∧ ∃ msg, _validate_proxy (JStr "ftp://host") = Raise (ProxyError msg).
Proof.
  split.
  - apply (proj1 validate_proxy_by_scheme). exists "127.0.0.1:9050". auto.
  - apply (proj2 validate_proxy_by_scheme). intros [rest [H|[H|H]]]; discriminate H.
Defined.

(** A text that passes validation is not empty. *)
Lemma scheme_not_empty s : starts_with_scheme s → s ≠ "".
Proof. intros [rest [->|[->| ->]]]; discriminate. Qed.

Lemma payload_fields self roblox_session blob proxy cookie payload :
  task_payload self roblox_session blob proxy cookie = Return payload →
  ∃ fields solving_proxy,
    payload = JObj fields
    ∧ fields !! "proxy" = Some (of_optional solving_proxy)
    ∧ (if truthy proxy then Some <$> _validate_proxy proxy
       else Return (Client.proxy self)) = Return solving_proxy.
Proof.
  unfold task_payload.
  destruct (if truthy proxy then _ else _) as [sp|]; [|done]. cbn.
  destruct (header roblox_session "sec-ch-ua"); [|done]. cbn.
  destruct (header roblox_session "user-agent"); [|done]. cbn.
  intros [= <-]. eexists _, sp. split_and!; [done| |done].
  by vm_compute.
Qed.

(** C6, as amended.  Whenever the payload of the task-creation request is
    built, its [proxy] field is resolved by precedence: a per-call proxy that
    is a non-empty text has passed validation and is the value sent, whatever
    the client-level proxy; with no per-call proxy, or an empty text, the
    client-level proxy is sent; and when there is no client-level proxy either
    the field is [None]. *)
Theorem payload_proxy_precedence self roblox_session blob proxy cookie payload :
  task_payload self roblox_session blob proxy cookie = Return payload →
  ∃ fields, payload = JObj fields ∧
    (∀ p, proxy = JStr p → p ≠ "" →
       _validate_proxy proxy = Return p ∧ fields !! "proxy" = Some (JStr p)) ∧
    (proxy = JNull ∨ proxy = JStr "" →
       fields !! "proxy" = Some (of_optional (Client.proxy self))) ∧
    (proxy = JNull ∨ proxy = JStr "" → Client.proxy self = None →
       fields !! "proxy" = Some JNull).
Proof.
  intros Hpl. destruct (payload_fields _ _ _ _ _ _ Hpl) as (fields & sp & -> & Hf & Hsp).
  exists fields. split_and!; [done|..].
  - intros p -> Hp. cbn [truthy] in Hsp.
    rewrite (proj2 (String.eqb_neq p "") Hp) in Hsp. cbn [negb] in Hsp.
    unfold _validate_proxy in *. destruct (negb _); [done|].
    cbn in Hsp. injection Hsp as <-. done.
  - intros [-> | ->]; cbn in Hsp; injection Hsp as <-; done.
  - intros [-> | ->] Hnone; cbn in Hsp; injection Hsp as <-; by rewrite Hnone in Hf.
Qed.

Lemma payload_proxy_precedence_witness :
  ∃ fields,
    task_payload proxied_client browser "blob" (JStr "https://proxy:3128") "" = Return (JObj fields)
    ∧ fields !! "proxy" = Some (JStr "https://proxy:3128").
Proof.
  destruct (payload_proxy_precedence proxied_client browser "blob"
              (JStr "https://proxy:3128") "" _ eq_refl) as (fields & Heq & Hcall & _).
  exists fields. split; [rewrite <- Heq; reflexivity|].
  exact (proj2 (Hcall "https://proxy:3128" eq_refl ltac:(discriminate))).
Defined.

(** C6 as stated fails: a per-call proxy that is present but empty does not
    override the client-level proxy, and is not validated either. *)
Lemma empty_per_call_proxy_does_not_override :
  ¬ (∀ self roblox_session blob (p : string) cookie fields,
       task_payload self roblox_session blob (JStr p) cookie = Return (JObj fields) →
       fields !! "proxy" = Some (JStr p)).
Proof.
  intros H.
  epose proof (H proxied_client browser "blob" "" "" _ eq_refl) as Hp.
  vm_compute in Hp. discriminate Hp.
Qed.

Section Properties.
Context {W : Type}.
Variable net : Transport W.
Variable py_str : value → string.


(** *** One iteration of the loop, by the answer it gets *)

Ltac poll_step H :=
  cbn [poll]; unfold mbind, M_bind, asyncio_sleep, request_json, lift, round;
  unfold reply, next in *; cbn [world trace];
  destruct (send net _ _) as [o w'] eqn:Hsend; cbn [fst snd] in *;
  rewrite <- ?app_assoc; cbn [app];
  try (rewrite H; clear H).

Lemma poll_transport_failure task_id d n s msg :
  reply net py_str task_id d (world s) = Fail msg →
  poll net py_str task_id d (S n) s = (Raise (ClientError msg), round net py_str task_id d s).
Proof. intros H. poll_step H. done. Qed.

Lemma poll_abort task_id d n s f :
  reply net py_str task_id d (world s) = Abort f →
  poll net py_str task_id d (S n) s = (Raise (failure_exn f), round net py_str task_id d s).
Proof. intros H. poll_step H. done. Qed.

Lemma poll_pending task_id d n s v :
  reply net py_str task_id d (world s) = Body v → pending v = true →
  poll net py_str task_id d (S n) s = poll net py_str task_id d n (round net py_str task_id d s).
Proof.
  intros H Hp. poll_step H.
  destruct v as [| | | | | |p]; try discriminate. cbn in *.
  destruct (p !! "status") as [st|]; [|discriminate]. cbn.
  apply andb_true_iff in Hp as [Hc Hf].
  apply negb_true_iff in Hc, Hf. rewrite Hc, Hf. done.
Qed.

Lemma poll_completed task_id d n s v sol :
  reply net py_str task_id d (world s) = Body v →
  has_status "completed" v = true → nested_solution v = Some sol →
  poll net py_str task_id d (S n) s = (Return sol, round net py_str task_id d s).
Proof.
  intros H Hc Hsol. poll_step H.
  destruct v as [| | | | | |p]; try discriminate. cbn in *.
  destruct (p !! "status") as [st|]; [|discriminate]. cbn. rewrite Hc.
  destruct (p !! "result") as [[| | | | | |r]|]; try discriminate. cbn.
  rewrite Hsol. done.
Qed.

Lemma poll_failed task_id d n s v :
  reply net py_str task_id d (world s) = Body v → has_status "failed" v = true →
  poll net py_str task_id d (S n) s = (Return JNull, round net py_str task_id d s).
Proof.
  intros H Hf. poll_step H.
  destruct v as [| | | | | |p]; try discriminate. cbn in *.
  destruct (p !! "status") as [st|]; [|discriminate]. cbn. rewrite Hf.
  destruct st; try discriminate. cbn in *.
  apply String.eqb_eq in Hf as ->. done.
Qed.

(** *** The loop as a whole *)

(** The state after [k] rounds. *)
Lemma round_after task_id d k (s : @state W) :
  {| world := after net py_str task_id d k (world (round net py_str task_id d s));
     trace := trace (round net py_str task_id d s) ++ rounds d (result_url py_str task_id) k |}
  = {| world := after net py_str task_id d (S k) (world s);
       trace := trace s ++ rounds d (result_url py_str task_id) (S k) |}.
Proof. unfold round. cbn [world trace after rounds]. by rewrite <- app_assoc. Qed.

(** Whatever the service answers, the loop adds to the trace at most [n]
    rounds and nothing else. *)
Lemma poll_trace_shape task_id d n (s : @state W) :
  ∃ k, k ≤ n ∧
    trace (poll net py_str task_id d n s).2 = trace s ++ rounds d (result_url py_str task_id) k.
Proof.
  revert s. induction n as [|n IH]; intros s.
  - exists 0. split; [done|]. cbn. by rewrite app_nil_r.
  - assert (Hone : trace (round net py_str task_id d s)
                   = trace s ++ rounds d (result_url py_str task_id) 1)
      by done.
    destruct (IH (round net py_str task_id d s)) as (k & Hk & Htr).
    destruct (reply net py_str task_id d (world s)) as [v|msg|f] eqn:Hr.
    2:{ exists 1. split; [lia|]. by rewrite (poll_transport_failure _ _ _ _ _ Hr). }
    2:{ exists 1. split; [lia|]. by rewrite (poll_abort _ _ _ _ _ Hr). }
    cbn [poll]. unfold mbind, M_bind, asyncio_sleep, request_json, lift.
    unfold reply in Hr. cbn [world trace].
    unfold round, next in IH, Htr, Hone. cbn [world trace] in IH, Htr, Hone.
    destruct (send net _ _) as [o w'] eqn:Hsend. cbn [fst snd] in *. subst o.
    rewrite <- !app_assoc in *. cbn [app] in *.
    destruct (py_getitem v "status") as [st|e]; cbn; [|by exists 1; split; [lia|]].
    destruct (py_eq_str st "completed").
    + destruct (py_getitem v "result") as [r|e]; cbn; [|by exists 1; split; [lia|]].
      destruct (py_getitem r "solution"); by exists 1; split; [lia|].
    + destruct (py_eq_str st "failed").
      * by exists 1; split; [lia|].
      * exists (S k). split; [lia|]. exact Htr.
Qed.

(** While the answers are pending bodies the loop goes on: after as many
    rounds as there are answers it is where it started, with that many
    iterations less to go. *)
Lemma poll_pending_prefix task_id d (vs : list value) n (s : @state W) :
  answers net py_str task_id d (world s) (Body <$> vs) →
  Forall (λ v, pending v = true) vs →
  poll net py_str task_id d (length vs + n) s
  = poll net py_str task_id d n
      {| world := after net py_str task_id d (length vs) (world s);
         trace := trace s ++ rounds d (result_url py_str task_id) (length vs) |}.
Proof.
  revert s. induction vs as [|v vs IH]; intros s Hans Hpend.
  - cbn. rewrite app_nil_r. by destruct s.
  - destruct Hans as [Hr Hans]. inversion_clear Hpend as [|? ? Hv Hvs].
    cbn [length Nat.add]. rewrite (poll_pending _ _ _ _ _ Hr Hv).
    rewrite IH; [|done..]. by rewrite round_after.
Qed.

(** The answers of a service that never reaches a terminal status, nor
    fails, are all pending. *)
Lemma always_pending_answers task_id d n w :
  (∀ w', ∃ v, (send net (GET (result_url py_str task_id) ∅ None) w').1 = Body v
              ∧ pending v = true) →
  ∃ vs, length vs = n ∧ Forall (λ v, pending v = true) vs
        ∧ answers net py_str task_id d w (Body <$> vs).
Proof.
  intros Hall. revert w. induction n as [|n IH]; intros w.
  - exists []. done.
  - destruct (Hall (pause net d w)) as (v & Hv & Hp).
    destruct (IH (next net py_str task_id d w)) as (vs & Hlen & Hps & Hans).
    exists (v :: vs). cbn. split_and!; [by rewrite Hlen|by constructor|done|done].
Qed.

(** *** The submission *)

Lemma solve_accepted self roblox_session blob proxy cookie max_retries d w0 payload task_id w1 :
  accepted net self roblox_session blob proxy cookie w0 = Some (payload, task_id, w1) →
  solve_funcaptcha net py_str self roblox_session blob proxy cookie max_retries d (start w0)
  = poll net py_str task_id d (Z.to_nat max_retries)
      {| world := w1; trace := [Request (POST create_url payload)] |}.
Proof.
  unfold accepted, solve_funcaptcha, mbind, M_bind, lift, request_json, start.
  destruct (task_payload _ _ _ _ _) as [pl|]; [|done]. cbn [world trace app].
  destruct (send net _ w0) as [[[| | | | | |data]| |] w] eqn:Hsend; try done.
  cbn [py_in py_getitem].
  destruct (data !! "error") eqn:He; [done|].
  destruct (data !! "taskId") eqn:Ht; [|done].
  intros [= -> -> ->].
  rewrite bool_decide_eq_false_2 by (by intros [? ?]). done.
Qed.

(** Every run leaves one of three traces: nothing (the payload could not be
    built), the submission alone, or the submission followed by at most
    [max_retries] rounds. *)
Lemma solve_trace_shape self roblox_session blob proxy cookie max_retries d (w0 : W) :
  let tr := trace (solve_funcaptcha net py_str self roblox_session blob proxy cookie
                     max_retries d (start w0)).2 in
  tr = [] ∨
  ∃ payload, tr = [Request (POST create_url payload)] ∨
    ∃ task_id k, k ≤ Z.to_nat max_retries ∧
      tr = Request (POST create_url payload) :: rounds d (result_url py_str task_id) k.
Proof.
  unfold solve_funcaptcha, mbind, M_bind, lift, request_json, start.
  destruct (task_payload _ _ _ _ _) as [pl|]; [|by left]. right. exists pl.
  cbn [world trace app].
  destruct (send net _ w0) as [[data| |] w] eqn:Hsend; [|by left..].
  destruct (py_in "error" data) as [[|]|]; [| |by left].
  - left. by destruct (py_getitem data "error").
  - destruct (py_getitem data "taskId") as [task_id|]; [|by left].
    right. exists task_id.
    destruct (poll_trace_shape task_id d (Z.to_nat max_retries)
                {| world := w; trace := [Request (POST create_url pl)] |}) as (k & Hk & ->).
    by exists k.
Qed.

(** *** Pending answers followed by a decisive one *)

Lemma solve_pending_then self roblox_session blob proxy cookie max_retries d w0
    payload task_id w1 (vs : list value) :
  accepted net self roblox_session blob proxy cookie w0 = Some (payload, task_id, w1) →
  answers net py_str task_id d w1 (Body <$> vs) →
  Forall (λ v, pending v = true) vs →
  (Z.of_nat (length vs) < max_retries)%Z →
  ∃ n, solve_funcaptcha net py_str self roblox_session blob proxy cookie max_retries d (start w0)
       = poll net py_str task_id d (S n)
           {| world := after net py_str task_id d (length vs) w1;
              trace := Request (POST create_url payload)
                       :: rounds d (result_url py_str task_id) (length vs) |}.
Proof.
  intros Hacc Hans Hpend Hlen.
  exists (Z.to_nat max_retries - S (length vs)).
  rewrite (solve_accepted _ _ _ _ _ _ _ _ _ _ _ Hacc).
  replace (Z.to_nat max_retries)
    with (length vs + S (Z.to_nat max_retries - S (length vs))) at 1 by lia.
  by rewrite poll_pending_prefix.
Qed.

Lemma answers_app task_id d w (rs1 rs2 : list outcome) :
  answers net py_str task_id d w (rs1 ++ rs2) ↔
  answers net py_str task_id d w rs1
  ∧ answers net py_str task_id d (after net py_str task_id d (length rs1) w) rs2.
Proof.
  revert w. induction rs1 as [|r rs1 IH]; intros w; cbn; [tauto|].
  rewrite IH. tauto.
Qed.

(** C1. A delay of [retry_delay] comes right before every status request of
    every run, the first one included.  And when the submission is accepted
    and the service answers the status requests with two pending bodies and
    then a [completed] one whose [result.solution] is ["S"], with
    [max_retries] at least 3, the run returns ["S"]; its trace is the
    submission followed by exactly three rounds of one delay and one status
    request, so the loop ends on the [completed] answer. *)
Theorem solve_delay_before_poll_and_completion :
  (∀ self roblox_session blob proxy cookie max_retries d (w0 : W),
     delay_before_every_poll d
       (trace (solve_funcaptcha net py_str self roblox_session blob proxy cookie
                 max_retries d (start w0)).2)) ∧
  (∀ self roblox_session blob proxy cookie max_retries d (w0 : W)
     payload task_id w1 p1 p2 c S,
     accepted net self roblox_session blob proxy cookie w0 = Some (payload, task_id, w1) →
     pending p1 = true → pending p2 = true →
     has_status "completed" c = true → nested_solution c = Some (JStr S) →
     answers net py_str task_id d w1 [Body p1; Body p2; Body c] →
     (3 ≤ max_retries)%Z →
     let run := solve_funcaptcha net py_str self roblox_session blob proxy cookie
                  max_retries d (start w0) in
     run.1 = Return (JStr S)
     ∧ trace run.2 = Request (POST create_url payload)
                     :: rounds d (result_url py_str task_id) 3
     ∧ polls (trace run.2) = 3 ∧ delays (trace run.2) = 3).
Proof.
  split.
  - intros self rs blob proxy cookie max_retries d w0.
    destruct (solve_trace_shape self rs blob proxy cookie max_retries d w0)
      as [->|(payload & [->|(task_id & k & _ & ->)])].
    + by intros i.
    + apply delay_after_post; [done|]. by intros i.
    + apply delay_after_post; [done|]. apply rounds_delay.
  - intros self rs blob proxy cookie max_retries d w0 payload task_id w1 p1 p2 c S
      Hacc Hp1 Hp2 Hc Hsol Hans Hmax run.
    destruct (proj1 (answers_app task_id d w1 [Body p1; Body p2] [Body c]) Hans)
      as [Hpre [Hlast _]].
    destruct (solve_pending_then self rs blob proxy cookie max_retries d w0
                payload task_id w1 [p1; p2] Hacc Hpre) as [n Hrun];
      [by repeat constructor|cbn; lia|].
    subst run. rewrite Hrun. erewrite poll_completed; [|exact Hlast|done..].
    cbn [fst snd round trace length].
    change (?x :: ?l ++ ?l') with ((x :: l) ++ l').
    rewrite !polls_app, !delays_app.
    change (Request ?r :: rounds d ?u 2) with ([Request r] ++ rounds d u 2).
    rewrite !polls_app, !delays_app, polls_rounds, delays_rounds.
    done.
Qed.

(** C2. With [max_retries] non-negative every run ends, in a result and a
    final state, having sent at most [max_retries] status requests.  When the
    submission is accepted and every answer to a status request is a body
    whose status is neither [completed] nor [failed], the run sends exactly
    [max_retries] status requests and then returns [None]; it raises
    nothing. *)
Theorem solve_polls_bounded_and_exhaustion :
  (∀ self roblox_session blob proxy cookie max_retries d (w0 : W),
     (0 ≤ max_retries)%Z →
     ∃ r s', solve_funcaptcha net py_str self roblox_session blob proxy cookie
               max_retries d (start w0) = (r, s')
             ∧ (Z.of_nat (polls (trace s')) ≤ max_retries)%Z) ∧
  (∀ self roblox_session blob proxy cookie max_retries d (w0 : W) payload task_id w1,
     (0 ≤ max_retries)%Z →
     accepted net self roblox_session blob proxy cookie w0 = Some (payload, task_id, w1) →
     (∀ w, ∃ v, (send net (GET (result_url py_str task_id) ∅ None) w).1 = Body v
                ∧ pending v = true) →
     let run := solve_funcaptcha net py_str self roblox_session blob proxy cookie
                  max_retries d (start w0) in
     run.1 = Return JNull
     ∧ trace run.2 = Request (POST create_url payload)
                     :: rounds d (result_url py_str task_id) (Z.to_nat max_retries)
     ∧ Z.of_nat (polls (trace run.2)) = max_retries).
Proof.
  split.
  - intros self rs blob proxy cookie max_retries d w0 Hmax.
    pose proof (solve_trace_shape self rs blob proxy cookie max_retries d w0) as Hshape.
    destruct (solve_funcaptcha _ _ _ _ _ _ _ _ _ _) as [r s']. exists r, s'.
    split; [done|]. cbn in Hshape.
    destruct Hshape as [->|(payload & [->|(task_id & k & Hk & ->)])]; [cbn; lia..|].
    change (Request ?r :: rounds d ?u k) with ([Request r] ++ rounds d u k).
    rewrite polls_app, polls_rounds. cbn. lia.
  - intros self rs blob proxy cookie max_retries d w0 payload task_id w1 Hmax Hacc Hall run.
    destruct (always_pending_answers task_id d (Z.to_nat max_retries) w1 Hall)
      as (vs & Hlen & Hpend & Hans).
    subst run. rewrite (solve_accepted _ _ _ _ _ _ _ _ _ _ _ Hacc).
    replace (Z.to_nat max_retries) with (length vs + 0) by lia.
    rewrite poll_pending_prefix by done. cbn [poll mret M_ret fst snd trace app].
    rewrite Nat.add_0_r, Hlen. split_and!; [done..|].
    change (Request ?r :: rounds d ?u ?k) with ([Request r] ++ rounds d u k).
    rewrite polls_app, polls_rounds. cbn. lia.
Qed.

(** C3. When the body answered to the task-creation request is a dictionary
    with an [error] field, the run raises [TaskError] with the value of that
    field; the submission is the only request it has sent, so there is no
    status request at all. *)
Theorem solve_task_error_no_poll
    self roblox_session blob proxy cookie max_retries d (w0 : W) payload data w1 e :
  task_payload self roblox_session blob proxy cookie = Return payload →
  send net (POST create_url payload) w0 = (Body (JObj data), w1) →
  data !! "error" = Some e →
  let run := solve_funcaptcha net py_str self roblox_session blob proxy cookie
               max_retries d (start w0) in
  run.1 = Raise (TaskError e)
  ∧ trace run.2 = [Request (POST create_url payload)]
  ∧ polls (trace run.2) = 0.
Proof.
  intros Hpl Hsend He run. subst run.
  unfold solve_funcaptcha, mbind, M_bind, lift, request_json, start.
  rewrite Hpl. cbn [world trace app]. rewrite Hsend. cbn [py_in py_getitem].
  rewrite bool_decide_eq_true_2 by (by rewrite He). rewrite He. done.
Qed.

(** C5. When the submission is accepted and the answers to the status
    requests are pending bodies up to a first one with status [failed],
    reached within [max_retries] requests, the run returns [None] (a value,
    not an exception) right after that answer: it has sent one status request
    per pending answer and one more.  With a single pending answer this is
    the sequence [processing, failed] and two requests. *)
Theorem solve_failed_returns_none
    self roblox_session blob proxy cookie max_retries d (w0 : W)
    payload task_id w1 (vs : list value) f :
  accepted net self roblox_session blob proxy cookie w0 = Some (payload, task_id, w1) →
  Forall (λ v, pending v = true) vs →
  has_status "failed" f = true →
  answers net py_str task_id d w1 ((Body <$> vs) ++ [Body f]) →
  (Z.of_nat (length vs) < max_retries)%Z →
  let run := solve_funcaptcha net py_str self roblox_session blob proxy cookie
               max_retries d (start w0) in
  run.1 = Return JNull
  ∧ trace run.2 = Request (POST create_url payload)
                  :: rounds d (result_url py_str task_id) (S (length vs))
  ∧ polls (trace run.2) = S (length vs).
Proof.
  intros Hacc Hpend Hf Hans Hlen run.
  apply answers_app in Hans as [Hpre [Hlast _]]. rewrite length_fmap in Hlast.
  destruct (solve_pending_then self roblox_session blob proxy cookie max_retries d w0
              payload task_id w1 vs Hacc Hpre Hpend Hlen) as [n Hrun].
  subst run. rewrite Hrun. erewrite poll_failed; [|exact Hlast|done].
  cbn [fst snd round trace]. rewrite rounds_snoc_cons.
  split_and!; [done..|].
  change (Request ?r :: rounds d ?u ?k) with ([Request r] ++ rounds d u k).
  by rewrite polls_app, polls_rounds.
Qed.

(** *** Transport failures *)

(** A failure of the submission ends the run with the transport's own
    exception; nothing is sent after it. *)
Lemma solve_submission_failure
    self roblox_session blob proxy cookie max_retries d (w0 : W) payload msg w1 :
  task_payload self roblox_session blob proxy cookie = Return payload →
  send net (POST create_url payload) w0 = (Fail msg, w1) →
  solve_funcaptcha net py_str self roblox_session blob proxy cookie max_retries d (start w0)
  = (Raise (ClientError msg), {| world := w1; trace := [Request (POST create_url payload)] |}).
Proof.
  intros Hpl Hsend.
  unfold solve_funcaptcha, mbind, M_bind, lift, request_json, start.
  rewrite Hpl. cbn [world trace app]. by rewrite Hsend.
Qed.

(** A failure of a status request ends the run with the transport's own
    exception; that request is the last one. *)
Lemma solve_poll_failure
    self roblox_session blob proxy cookie max_retries d (w0 : W)
    payload task_id w1 (vs : list value) msg :
  accepted net self roblox_session blob proxy cookie w0 = Some (payload, task_id, w1) →
  Forall (λ v, pending v = true) vs →
  answers net py_str task_id d w1 ((Body <$> vs) ++ [Fail msg]) →
  (Z.of_nat (length vs) < max_retries)%Z →
  let run := solve_funcaptcha net py_str self roblox_session blob proxy cookie
               max_retries d (start w0) in
  run.1 = Raise (ClientError msg)
  ∧ trace run.2 = Request (POST create_url payload)
                  :: rounds d (result_url py_str task_id) (S (length vs)).
Proof.
  intros Hacc Hpend Hans Hlen run.
  apply answers_app in Hans as [Hpre [Hlast _]]. rewrite length_fmap in Hlast.
  destruct (solve_pending_then self roblox_session blob proxy cookie max_retries d w0
              payload task_id w1 vs Hacc Hpre Hpend Hlen) as [n Hrun].
  subst run. rewrite Hrun. erewrite poll_transport_failure; [|exact Hlast].
  cbn [fst snd round trace]. by rewrite rounds_snoc_cons.
Qed.

(** *** Construction and balance *)

Section Constructor.
Variable new_session : W → option string * W.


End Constructor.

(** C9, as amended.  The balance query answered by a dictionary with an
    [error] field raises [InvalidKey] with the value of that field; a request
    that fails with an [aiohttp.ClientError] raises [RoSolveException] with
    the message [Connection error: ] followed by the failure's own; a request
    that fails otherwise (the session's timeout, a body that cannot be
    decoded) raises that failure's own exception, unchanged; a dictionary
    without [error] yields the value of its [balance] field. *)
Theorem get_balance_outcomes self (s : @state W) :
  let req := GET (BASE_URL +:+ "/getBalance") {[ "key" := Client.api_key self ]}
               (Client.proxy self) in
  (∀ data w' e,
     send net req (world s) = (Body (JObj data), w') → data !! "error" = Some e →
     (get_balance net self s).1 = Raise (InvalidKey e)) ∧
  (∀ msg w',
     send net req (world s) = (Fail msg, w') →
     (get_balance net self s).1 = Raise (RoSolveException ("Connection error: " +:+ msg))) ∧
  (∀ f w',
     send net req (world s) = (Abort f, w') →
     (get_balance net self s).1 = Raise (failure_exn f)) ∧
  (∀ data w' b,
     send net req (world s) = (Body (JObj data), w') →
     data !! "error" = None → data !! "balance" = Some b →
     (get_balance net self s).1 = Return b).
Proof.
  intros req. subst req.
  unfold get_balance, except_ClientError, mbind, M_bind, lift, request_json, raise.
  split_and!.
  - intros data w' e -> He. cbn [py_in py_getitem].
    rewrite bool_decide_eq_true_2 by (by rewrite He). by rewrite He.
  - by intros msg w' ->.
  - intros f w' ->. by destruct f.
  - intros data w' b -> He Hb. cbn [py_in py_getitem].
    rewrite bool_decide_eq_false_2 by (rewrite He; by intros [? ?]). by rewrite Hb.
Qed.

(** *** Responses without the documented fields *)

Lemma poll_no_status task_id d n (s : @state W) p :
  reply net py_str task_id d (world s) = Body (JObj p) → p !! "status" = None →
  poll net py_str task_id d (S n) s = (Raise (KeyError "status"), round net py_str task_id d s).
Proof. intros H Hst. poll_step H. cbn. by rewrite Hst. Qed.

Lemma poll_completed_no_solution task_id d n (s : @state W) v :
  reply net py_str task_id d (world s) = Body v →
  has_status "completed" v = true → nested_solution v = None →
  ∃ e, poll net py_str task_id d (S n) s = (Raise e, round net py_str task_id d s)
       ∧ (e = KeyError "result" ∨ e = KeyError "solution" ∨ e = TypeError).
Proof.
  intros H Hc Hsol. poll_step H.
  destruct v as [| | | | | |p]; try discriminate. cbn in *.
  destruct (p !! "status") as [st|]; [|discriminate]. cbn. rewrite Hc.
  destruct (p !! "result") as [r|]; cbn; [|by eexists; eauto].
  destruct r as [| | | | | |r]; cbn; try by eexists; eauto.
  rewrite Hsol. by eexists; eauto.
Qed.

(** With well-formed answers the loop never fails on a subscript. *)
Lemma poll_well_formed_safe task_id d n (s : @state W) e :
  (∀ w, match (send net (GET (result_url py_str task_id) ∅ None) w).1 with
        | Body v => poll_well_formed v = true
        | Fail _ | Abort _ => True
        end) →
  (poll net py_str task_id d n s).1 = Raise e → lookup_error e = false.
Proof.
  intros Hwf. revert s. induction n as [|n IH]; intros s; [done|].
  cbn [poll]. unfold mbind, M_bind, asyncio_sleep, request_json, lift. cbn [world trace].
  specialize (Hwf (pause net d (world s))).
  destruct (send net _ _) as [[v|msg|f] w']; cbn [fst snd] in *;
    [|by intros [= <-]|intros [= <-]; by destruct f].
  destruct v as [| | | | | |p]; try discriminate. cbn in *.
  destruct (p !! "status") as [st|]; [|discriminate]. cbn.
  destruct (py_eq_str st "completed").
  - apply bool_decide_eq_true in Hwf as [sol Hsol].
    destruct (p !! "result") as [[| | | | | |r]|]; try discriminate. cbn.
    by rewrite Hsol.
  - destruct (py_eq_str st "failed"); [done|]. apply IH.
Qed.

(** C10. The run reads the responses without guarding the subscripts.  A
    submission answered by a dictionary with neither [error] nor [taskId]
    raises [KeyError]; so does a poll answered by a dictionary without
    [status]; and a poll answered with status [completed] but no
    [result.solution] raises [KeyError] or [TypeError].  None of these is one
    of the documented error kinds.  When every answer of the service carries
    the documented fields, no run whose payload is built ends in such an
    exception. *)
Theorem solve_unguarded_lookups
    self roblox_session blob proxy cookie max_retries d (w0 : W) payload :
  task_payload self roblox_session blob proxy cookie = Return payload →
  let run := solve_funcaptcha net py_str self roblox_session blob proxy cookie
               max_retries d (start w0) in
  (∀ data w1,
     send net (POST create_url payload) w0 = (Body (JObj data), w1) →
     data !! "error" = None → data !! "taskId" = None →
     run.1 = Raise (KeyError "taskId")) ∧
  (∀ task_id w1 (vs : list value) p,
     accepted net self roblox_session blob proxy cookie w0 = Some (payload, task_id, w1) →
     Forall (λ v, pending v = true) vs →
     answers net py_str task_id d w1 ((Body <$> vs) ++ [Body (JObj p)]) →
     (Z.of_nat (length vs) < max_retries)%Z →
     p !! "status" = None →
     run.1 = Raise (KeyError "status")) ∧
  (∀ task_id w1 (vs : list value) c,
     accepted net self roblox_session blob proxy cookie w0 = Some (payload, task_id, w1) →
     Forall (λ v, pending v = true) vs →
     answers net py_str task_id d w1 ((Body <$> vs) ++ [Body c]) →
     (Z.of_nat (length vs) < max_retries)%Z →
     has_status "completed" c = true → nested_solution c = None →
     ∃ e, run.1 = Raise e
          ∧ (e = KeyError "result" ∨ e = KeyError "solution" ∨ e = TypeError)) ∧
  (∀ e, lookup_error e = true → documented e = false) ∧
  ((∀ w, match (send net (POST create_url payload) w).1 with
         | Body v => submission_well_formed v = true
         | Fail _ | Abort _ => True
         end) →
   (∀ task_id w, match (send net (GET (result_url py_str task_id) ∅ None) w).1 with
                 | Body v => poll_well_formed v = true
                 | Fail _ | Abort _ => True
                 end) →
   ∀ e, run.1 = Raise e → lookup_error e = false).
Proof.
  intros Hpl run. split_and!.
  - intros data w1 Hsend He Ht. subst run.
    unfold solve_funcaptcha, mbind, M_bind, lift, request_json, start.
    rewrite Hpl. cbn [world trace app]. rewrite Hsend. cbn [py_in py_getitem].
    rewrite bool_decide_eq_false_2 by (rewrite He; by intros [? ?]). by rewrite Ht.
  - intros task_id w1 vs p Hacc Hpend Hans Hlen Hst.
    apply answers_app in Hans as [Hpre [Hlast _]]. rewrite length_fmap in Hlast.
    destruct (solve_pending_then self roblox_session blob proxy cookie max_retries d w0
                payload task_id w1 vs Hacc Hpre Hpend Hlen) as [n Hrun].
    subst run. rewrite Hrun. by erewrite poll_no_status; [|exact Hlast|].
  - intros task_id w1 vs c Hacc Hpend Hans Hlen Hc Hsol.
    apply answers_app in Hans as [Hpre [Hlast _]]. rewrite length_fmap in Hlast.
    destruct (solve_pending_then self roblox_session blob proxy cookie max_retries d w0
                payload task_id w1 vs Hacc Hpre Hpend Hlen) as [n Hrun].
    subst run. rewrite Hrun.
    destruct (poll_completed_no_solution task_id d n
                {| world := after net py_str task_id d (length vs) w1;
                   trace := Request (POST create_url payload)
                            :: rounds d (result_url py_str task_id) (length vs) |}
                c Hlast Hc Hsol) as (e & -> & He).
    by exists e.
  - by intros [].
  - intros Hsub Hpoll e. subst run.
    unfold solve_funcaptcha, mbind, M_bind, lift, request_json, start.
    rewrite Hpl. cbn [world trace app]. specialize (Hsub w0).
    destruct (send net _ w0) as [[v|msg|f] w1]; cbn [fst snd] in *;
      [|by intros [= <-]|intros [= <-]; by destruct f].
    destruct v as [| | | | | |data]; try discriminate. cbn [py_in py_getitem].
    unfold submission_well_formed in Hsub.
    destruct (data !! "error") as [err|] eqn:He.
    + rewrite bool_decide_eq_true_2 by done. by intros [= <-].
    + rewrite bool_decide_eq_false_2 in * by (by intros [? ?]).
      cbn in Hsub. apply bool_decide_eq_true in Hsub as [tid Htid]. rewrite Htid.
      apply poll_well_formed_safe, Hpoll.
Qed.

End Properties.

(** ** The properties on scripted services *)

Lemma solve_three_polls_witness :
  let run := solve_funcaptcha (stub (Body (task_body "t1")) (Fail "unreachable")) no_repr
               plain_client browser "blob" JNull "" 60 1%float
               (start [Body processing; Body processing; Body (completed_body "S")]) in
  run.1 = Return (JStr "S") ∧ polls (trace run.2) = 3 ∧ delays (trace run.2) = 3.
Proof.
  intros run.
  destruct (proj2 (solve_delay_before_poll_and_completion
                     (stub (Body (task_body "t1")) (Fail "unreachable")) no_repr)
              plain_client browser "blob" JNull "" 60%Z 1%float
              [Body processing; Body processing; Body (completed_body "S")]
              example_payload (JStr "t1")
              [Body processing; Body processing; Body (completed_body "S")]
              processing processing (completed_body "S") "S")
    as (Hr & _ & Hp & Hd); [reflexivity..|cbn; auto|lia|auto].
Defined.

Lemma solve_exhaustion_witness :
  let run := solve_funcaptcha (steady (Body (task_body "t1")) (Body processing)) no_repr
               plain_client browser "blob" JNull "" 2 0.5%float (start ()) in
  run.1 = Return JNull ∧ polls (trace run.2) = 2.
Proof.
  intros run.
  destruct (proj2 (solve_polls_bounded_and_exhaustion
                     (steady (Body (task_body "t1")) (Body processing)) no_repr)
              plain_client browser "blob" JNull "" 2%Z 0.5%float ()
              example_payload (JStr "t1") ())
    as (Hr & _ & Hp).
  - lia.
  - reflexivity.
  - intros w. exists processing. split; reflexivity.
  - split; [exact Hr|]. apply Nat2Z.inj. exact Hp.
Defined.

Lemma solve_task_error_witness :
  let run := solve_funcaptcha (stub (Body (error_body "no credit")) (Body processing)) no_repr
               plain_client browser "blob" JNull "" 60 1%float (start []) in
  run.1 = Raise (TaskError (JStr "no credit")) ∧ polls (trace run.2) = 0.
Proof.
  intros run.
  destruct (solve_task_error_no_poll
              (stub (Body (error_body "no credit")) (Body processing)) no_repr
              plain_client browser "blob" JNull "" 60%Z 1%float []
              example_payload {[ "error" := JStr "no credit" ]} [] (JStr "no credit"))
    as (Hr & _ & Hp); [reflexivity..|auto].
Defined.

Lemma solve_processing_failed_witness :
  let run := solve_funcaptcha (stub (Body (task_body "t1")) (Fail "unreachable")) no_repr
               plain_client browser "blob" JNull "" 60 1%float
               (start [Body processing; Body (status_body "failed")]) in
  run.1 = Return JNull ∧ polls (trace run.2) = 2.
Proof.
  intros run.
  destruct (solve_failed_returns_none
              (stub (Body (task_body "t1")) (Fail "unreachable")) no_repr
              plain_client browser "blob" JNull "" 60%Z 1%float
              [Body processing; Body (status_body "failed")]
              example_payload (JStr "t1")
              [Body processing; Body (status_body "failed")]
              [processing] (status_body "failed"))
    as (Hr & _ & Hp).
  - reflexivity.
  - repeat constructor.
  - reflexivity.
  - cbn. auto.
  - cbn. lia.
  - auto.
Defined.

(** C4 fails on the code.  A transport failure of the submission, or of a
    status request, does end the run at once, but with the transport's own
    exception: [solve_funcaptcha] has no handler that turns it into the
    connection error, which [get_balance] raises for the same failure. *)
Theorem solve_transport_failure_not_wrapped :
  let down := stub (Fail "connection reset") (Fail "connection reset") in
  let flaky := stub (Body (task_body "t1")) (Body processing) in
  let run := solve_funcaptcha down no_repr plain_client browser "blob" JNull ""
               60 1%float (start []) in
  let run' := solve_funcaptcha flaky no_repr plain_client browser "blob" JNull ""
                60 1%float (start [Body processing; Fail "connection reset"]) in
  (run.1 = Raise (ClientError "connection reset") ∧ polls (trace run.2) = 0)
  ∧ (run'.1 = Raise (ClientError "connection reset") ∧ polls (trace run'.2) = 2)
  ∧ documented (ClientError "connection reset") = false
  ∧ (get_balance down plain_client (start [])).1
    = Raise (RoSolveException "Connection error: connection reset").
Proof. vm_compute. auto. Qed.



(** C9 as stated fails: a request that runs into the session's timeout has
    failed in transport, yet the balance query raises no connection error
    for it; [asyncio.TimeoutError] reaches the caller as it is. *)
Lemma get_balance_timeout_not_wrapped :
  ¬ (∀ (net : Transport unit) self (s : @state unit),
       (∀ v, (send net (GET (BASE_URL +:+ "/getBalance")
                          {[ "key" := Client.api_key self ]} (Client.proxy self))
                (world s)).1 ≠ Body v) →
       ∃ msg, (get_balance net self s).1 = Raise (RoSolveException msg)).
Proof.
  intros H.
  destruct (H (steady (Abort TimedOut) (Abort TimedOut)) plain_client (start ()))
    as [msg Hmsg].
  - intros v. discriminate.
  - discriminate Hmsg.
Qed.

Lemma get_balance_bad_key_witness :
  (get_balance (stub (Fail "unreachable") (Fail "unreachable")) plain_client
     (start [Body (error_body "bad key")])).1
  = Raise (InvalidKey (JStr "bad key")).
Proof.
  apply (proj1 (get_balance_outcomes (stub (Fail "unreachable") (Fail "unreachable"))
                  plain_client (start [Body (error_body "bad key")]))
           {[ "error" := JStr "bad key" ]} [] (JStr "bad key")); reflexivity.
Defined.

Lemma solve_unguarded_lookups_witness :
  (solve_funcaptcha (steady (Body (JObj ∅)) (Body processing)) no_repr
     plain_client browser "blob" JNull "" 60 1%float (start ())).1
  = Raise (KeyError "taskId")
  ∧ ∀ e, (solve_funcaptcha (steady (Body (task_body "t1")) (Body (completed_body "S"))) no_repr
            plain_client browser "blob" JNull "" 60 1%float (start ())).1 = Raise e →
         lookup_error e = false.
Proof.
  split.
  - apply (proj1 (solve_unguarded_lookups (steady (Body (JObj ∅)) (Body processing)) no_repr
                    plain_client browser "blob" JNull "" 60%Z 1%float () example_payload eq_refl)
             ∅ ()); reflexivity.
  - apply (proj2 (proj2 (proj2 (proj2
             (solve_unguarded_lookups
                (steady (Body (task_body "t1")) (Body (completed_body "S"))) no_repr
                plain_client browser "blob" JNull "" 60%Z 1%float () example_payload eq_refl))))).
    + intros w. reflexivity.
    + intros task_id w. reflexivity.
Defined.

(** ** Further properties: validation, construction and the payload *)

Lemma validate_proxy_total v :
  (∃ s, v = JStr s ∧ starts_with_scheme s ∧ s ≠ "" ∧ _validate_proxy v = Return s)
  ∨ (∃ msg, _validate_proxy v = Raise (ProxyError msg)
            ∧ ∀ s, v = JStr s → ¬ starts_with_scheme s).
Proof.
  destruct v as [| | | |s| |]; try (right; eexists; split; [reflexivity|by intros s [=]]).
  destruct (existsb (λ p, String.prefix p s) schemes) eqn:He.
  - left. exists s. apply scheme_accepted in He as Hs.
    split_and!; [done|done|by apply scheme_not_empty|].
    unfold _validate_proxy. by rewrite He.
  - right. assert (Hs : ¬ starts_with_scheme s).
    { intros Hs. apply scheme_accepted in Hs. congruence. }
    destruct (validate_rejects s Hs) as [msg Hmsg]. exists msg.
    split; [done|]. by intros s' [= <-].
Qed.

(** X1. Validation has two outcomes only.  Either its argument is a text
    that starts with an accepted prefix (so it is not empty) and that same
    text is returned, or it raises [ProxyError] and its argument is not such
    a text; a value that is not a text (a number, a list, [None]) raises
    [ProxyError] too, never [TypeError]. *)
Theorem validate_proxy_two_outcomes v :
  (∃ s, v = JStr s ∧ starts_with_scheme s ∧ s ≠ "" ∧ _validate_proxy v = Return s)
  ∨ (∃ msg, _validate_proxy v = Raise (ProxyError msg)
            ∧ ∀ s, v = JStr s → ¬ starts_with_scheme s).
Proof. apply validate_proxy_total. Qed.

Section Construction.
Context {W : Type}.
Variable new_session : W → option string * W.

Lemma init_returns key session p (st st' : @state W) c :
  __init__ new_session key session p st = (Return c, st') →
  Client.api_key c = key
  ∧ ((truthy p = false ∧ Client.proxy c = None)
     ∨ ∃ s, p = JStr s ∧ s ≠ "" ∧ starts_with_scheme s ∧ Client.proxy c = Some s).
Proof.
  unfold __init__, mbind, M_bind, lift, mret, M_ret.
  destruct (take_session new_session session st) as [[[]|e] s1]; [|done].
  destruct (truthy p) eqn:Ht.
  - destruct (validate_proxy_total p) as [(s & -> & Hs & Hne & ->)|(msg & -> & _)]; cbn;
      [|done].
    intros [= <- _]. split; [done|]. right. by exists s.
  - cbn. intros [= <- _]. split; [done|]. by left.
Qed.

(** X2. Construction sends nothing, and with a session passed in it leaves
    the world as it is.  A client it returns holds the given key, and its
    proxy is [None] (the argument was false in a test: [None], the empty
    text) or the argument itself, a non-empty text with an accepted prefix.
    With no session passed in, one is created before the proxy is looked at:
    when that fails, the constructor raises the [RuntimeError] of the
    creation, whatever the proxy is. *)
Theorem init_outcomes key session p (st : @state W) :
  trace (__init__ new_session key session p st).2 = trace st
  ∧ (session = Supplied → (__init__ new_session key session p st).2 = st)
  ∧ (∀ c, (__init__ new_session key session p st).1 = Return c →
          Client.api_key c = key
          ∧ ((truthy p = false ∧ Client.proxy c = None)
             ∨ ∃ s, p = JStr s ∧ s ≠ "" ∧ starts_with_scheme s ∧ Client.proxy c = Some s))
  ∧ (∀ msg, session = Absent → (new_session (world st)).1 = Some msg →
            (__init__ new_session key session p st).1 = Raise (RuntimeError msg)).
Proof.
  split_and!.
  - unfold __init__, take_session, mbind, M_bind, lift, mret, M_ret.
    destruct session; [|destruct (new_session (world st)) as [[msg|] w]; cbn [fst snd]];
      try done;
      by destruct (if truthy p then _ else _).
  - intros ->. unfold __init__, take_session, mbind, M_bind, lift, mret, M_ret.
    by destruct (if truthy p then _ else _).
  - intros c Hc.
    destruct (__init__ new_session key session p st) as [r st'] eqn:Hinit.
    cbn in Hc. subst r. by eapply init_returns.
  - intros msg -> Hnew. unfold __init__, take_session, mbind, M_bind.
    destruct (new_session (world st)) as [failed w]. cbn in Hnew. by subst failed.
Qed.

End Construction.

Lemma validate_accepts s : starts_with_scheme s → _validate_proxy (JStr s) = Return s.
Proof.
  intros Hs. apply scheme_accepted in Hs. unfold _validate_proxy. by rewrite Hs.
Qed.

Lemma named_nil key roblox_session :
  named key roblox_session = []
  ↔ ∀ name v, (name, v) ∈ headers roblox_session → lower name ≠ lower key.
Proof.
  unfold named. induction (headers roblox_session) as [|[n v] l IH]; cbn.
  - split; [|done]. intros _ name v' Hin. by apply elem_of_nil in Hin.
  - destruct (String.eqb (lower n) (lower key)) eqn:He.
    + split; [done|]. intros H. apply String.eqb_eq in He.
      destruct (H n v); [left|done].
    + apply String.eqb_neq in He. rewrite IH. split.
      * intros H name v' [[= -> ->]|Hin]%elem_of_cons; [done|by eapply H].
      * intros H name v' Hin. eapply H. by right.
Qed.

(** The payload cannot be built in three ways only, tried in this order. *)
Lemma task_payload_failure self roblox_session blob proxy cookie e :
  task_payload self roblox_session blob proxy cookie = Raise e →
  (truthy proxy = true ∧ _validate_proxy proxy = Raise e)
  ∨ (e = KeyError "sec-ch-ua" ∧ named "sec-ch-ua" roblox_session = [])
  ∨ (e = KeyError "user-agent" ∧ named "user-agent" roblox_session = []).
Proof.
  unfold task_payload, header.
  destruct (truthy proxy).
  - destruct (_validate_proxy proxy) as [s|e']; cbn.
    + destruct (named "sec-ch-ua" roblox_session); cbn; [intros [= <-]; auto|].
      destruct (named "user-agent" roblox_session); cbn; [intros [= <-]; auto|done].
    + intros [= <-]. auto.
  - cbn.
    destruct (named "sec-ch-ua" roblox_session); cbn; [intros [= <-]; auto|].
    destruct (named "user-agent" roblox_session); cbn; [intros [= <-]; auto|done].
Qed.

Section BeforeTheSubmission.
Context {W : Type}.
Variable net : Transport W.
Variable py_str : value → string.

Lemma solve_payload_failure
    self roblox_session blob proxy cookie max_retries d (w0 : W) e :
  task_payload self roblox_session blob proxy cookie = Raise e →
  solve_funcaptcha net py_str self roblox_session blob proxy cookie max_retries d (start w0)
  = (Raise e, start w0).
Proof.
  intros Hpl. unfold solve_funcaptcha, mbind, M_bind, lift. by rewrite Hpl.
Qed.

(** X3. A per-call proxy that is true in a test and fails validation makes
    the run raise [ProxyError] before anything is sent, whatever the headers
    of the browsing session and the client-level proxy are: the final state
    is the initial one. *)
Theorem solve_invalid_proxy_sends_nothing
    self roblox_session blob proxy cookie max_retries d (w0 : W) :
  truthy proxy = true →
  (∀ s, proxy = JStr s → ¬ starts_with_scheme s) →
  ∃ msg,
    solve_funcaptcha net py_str self roblox_session blob proxy cookie max_retries d (start w0)
    = (Raise (ProxyError msg), start w0).
Proof.
  intros Ht Hbad.
  destruct (validate_proxy_total proxy) as [(s & -> & Hs & _)|(msg & Hmsg & _)];
    [by destruct (Hbad s eq_refl)|].
  exists msg. apply solve_payload_failure.
  unfold task_payload. by rewrite Ht, Hmsg.
Qed.

(** X4. With a per-call proxy that is absent or valid, a browsing session
    with no header named [sec-ch-ua], in any letter case, makes the run raise
    [KeyError] on that name, and one that has such a header but none named
    [user-agent] raises [KeyError] on [user-agent]; in both cases nothing has
    been sent. *)
Theorem solve_missing_header_sends_nothing
    self roblox_session blob proxy cookie max_retries d (w0 : W) :
  truthy proxy = false ∨ (∃ s, proxy = JStr s ∧ starts_with_scheme s) →
  ((∀ name v, (name, v) ∈ headers roblox_session → lower name ≠ "sec-ch-ua") →
   solve_funcaptcha net py_str self roblox_session blob proxy cookie max_retries d (start w0)
   = (Raise (KeyError "sec-ch-ua"), start w0))
  ∧ ((∃ name v, (name, v) ∈ headers roblox_session ∧ lower name = "sec-ch-ua") →
     (∀ name v, (name, v) ∈ headers roblox_session → lower name ≠ "user-agent") →
     solve_funcaptcha net py_str self roblox_session blob proxy cookie max_retries d (start w0)
     = (Raise (KeyError "user-agent"), start w0)).
Proof.
  intros Hproxy.
  assert (Hsp : ∃ sp, (if truthy proxy then Some <$> _validate_proxy proxy
                       else Return (Client.proxy self)) = Return sp).
  { destruct Hproxy as [->|(s & -> & Hs)]; [by eexists|].
    rewrite (validate_accepts s Hs). destruct (truthy _); by eexists. }
  destruct Hsp as [sp Hsp].
  split.
  - intros Hua. apply solve_payload_failure. unfold task_payload, header.
    rewrite Hsp. cbn. by rewrite (proj2 (named_nil "sec-ch-ua" roblox_session) Hua).
  - intros (name & v & Hin & Hname) Hagent.
    apply solve_payload_failure. unfold task_payload, header. rewrite Hsp. cbn.
    destruct (named "sec-ch-ua" roblox_session) as [|item items] eqn:Hua.
    { destruct (proj1 (named_nil "sec-ch-ua" roblox_session) Hua name v Hin). exact Hname. }
    cbn. by rewrite (proj2 (named_nil "user-agent" roblox_session) Hagent).
Qed.

End BeforeTheSubmission.

(** X5. A payload that is built is a dictionary of exactly four fields,
    [key], [challengeInfo], [browserInfo] and [proxy].  [key] is the client's
    API key; the blob sits at [challengeInfo.extraData.blob];
    [browserInfo] holds the cookie passed to the call and the two headers
    read from the browsing session, which therefore has both. *)
Theorem payload_contents self roblox_session blob proxy cookie payload :
  task_payload self roblox_session blob proxy cookie = Return payload →
  ∃ fields challenge sec_ch_ua user_agent,
    payload = JObj fields
    ∧ dom fields = ({[ "key"; "challengeInfo"; "browserInfo"; "proxy" ]} : gset string)
    ∧ fields !! "key" = Some (JStr (Client.api_key self))
    ∧ fields !! "challengeInfo" = Some (JObj challenge)
    ∧ challenge !! "extraData" = Some (JObj {[ "blob" := JStr blob ]})
    ∧ header roblox_session "sec-ch-ua" = Return sec_ch_ua
    ∧ header roblox_session "user-agent" = Return user_agent
    ∧ fields !! "browserInfo"
      = Some (JObj (list_to_map [("Cookie", JStr cookie);
                                 ("Sec-Ch-Ua", JStr sec_ch_ua);
                                 ("User-Agent", JStr user_agent)])).
Proof.
  unfold task_payload.
  destruct (if truthy proxy then _ else _) as [sp|]; [|done]. cbn.
  destruct (header roblox_session "sec-ch-ua") as [ua|]; [|done]. cbn.
  destruct (header roblox_session "user-agent") as [agent|]; [|done]. cbn.
  intros [= <-]. eexists _, _, ua, agent.
  split_and!; [reflexivity| |by vm_compute..].
  rewrite !dom_insert_L, dom_empty_L. set_solver.
Qed.

Lemma payload_contents_witness :
  ∃ fields,
    task_payload plain_client browser "blob" JNull "session=1" = Return (JObj fields)
    ∧ fields !! "key" = Some (JStr "key").
Proof.
  destruct (payload_contents plain_client browser "blob" JNull "session=1" _ eq_refl)
    as (fields & challenge & ua & agent & Heq & _ & Hkey & _).
  exists fields. split; [rewrite <- Heq; reflexivity|exact Hkey].
Defined.

(** X6. Construction and submission together: for a client returned by the
    constructor and any per-call proxy, the [proxy] field of a payload that
    is built is [None] or a text with an accepted prefix.  No proxy reaches
    the service without having passed validation. *)
Theorem constructed_client_sends_validated_proxy
    {W : Type} (new_session : W → option string * W) key session p0 (st st' : @state W) c
    roblox_session blob proxy cookie fields :
  __init__ new_session key session p0 st = (Return c, st') →
  task_payload c roblox_session blob proxy cookie = Return (JObj fields) →
  fields !! "proxy" = Some JNull
  ∨ ∃ s, fields !! "proxy" = Some (JStr s) ∧ starts_with_scheme s.
Proof.
  intros Hinit Hpl.
  assert (Hclient : Client.proxy c = None
                    ∨ ∃ s, Client.proxy c = Some s ∧ starts_with_scheme s).
  { destruct (init_returns _ _ _ _ _ _ _ Hinit) as [_ [[_ ?]|(s & _ & _ & ? & ?)]]; eauto. }
  destruct (payload_fields _ _ _ _ _ _ Hpl) as (fields' & sp & [= <-] & Hf & Hsp).
  rewrite Hf. destruct (truthy proxy).
  - destruct (validate_proxy_total proxy) as [(s & -> & Hs & _ & Hv)|(msg & Hv & _)];
      rewrite Hv in Hsp; [|done].
    injection Hsp as <-. right. by exists s.
  - injection Hsp as <-.
    destruct Hclient as [->|(s & -> & Hs)]; [by left|right; by exists s].
Qed.

Lemma constructed_client_sends_validated_proxy_witness :
  let fields := match task_payload proxied_client browser "blob" JNull "" with
                | Return (JObj f) => f
                | _ => ∅
                end in
  fields !! "proxy" = Some JNull
  ∨ ∃ s, fields !! "proxy" = Some (JStr s) ∧ starts_with_scheme s.
Proof.
  intros fields.
  apply (constructed_client_sends_validated_proxy (W := unit) no_loop
           "key" Supplied (JStr "http://10.0.0.1:8080") (start ()) (start ())
           proxied_client browser "blob" JNull "" fields); reflexivity.
Defined.

Lemma solve_invalid_proxy_sends_nothing_witness :
  ∃ msg,
    solve_funcaptcha (steady (Body (task_body "t1")) (Body processing)) no_repr
      proxied_client browser "blob" (JStr "ftp://host") "" 60 1%float (start ())
    = (Raise (ProxyError msg), start ()).
Proof.
  apply solve_invalid_proxy_sends_nothing.
  - reflexivity.
  - intros s [= <-] [rest [H|[H|H]]]; discriminate H.
Defined.

Lemma solve_missing_header_sends_nothing_witness :
  solve_funcaptcha (steady (Body (task_body "t1")) (Body processing)) no_repr
    plain_client {| headers := [("Sec-Ch-Ua", "Chromium")] |} "blob" JNull ""
    60 1%float (start ())
  = (Raise (KeyError "user-agent"), start ()).
Proof.
  apply (proj2 (solve_missing_header_sends_nothing
                  (steady (Body (task_body "t1")) (Body processing)) no_repr
                  plain_client {| headers := [("Sec-Ch-Ua", "Chromium")] |}
                  "blob" JNull "" 60%Z 1%float () (or_introl eq_refl))).
  - exists "Sec-Ch-Ua", "Chromium". split; [left|reflexivity].
  - intros name v [[= -> ->]|Hin]%elem_of_cons; [discriminate|by apply elem_of_nil in Hin].
Defined.

(** ** Further properties: the requests of a run *)

Lemma posts_rounds d url n : posts (rounds d url n) = 0.
Proof. induction n as [|n IH]; [done|]. exact IH. Qed.

Lemma rounds_lookup_request d url n i r :
  rounds d url n !! i = Some (Request r) → r = GET url ∅ None.
Proof.
  revert i. induction n as [|n IH]; intros i Hi; [done|].
  destruct i as [|[|i]]; cbn in Hi; [done|by injection Hi|by eapply IH].
Qed.

Lemma rounds_lookup_sleep d url n i d' :
  rounds d url n !! i = Some (Sleep d') → d' = d.
Proof.
  revert i. induction n as [|n IH]; intros i Hi; [done|].
  destruct i as [|[|i]]; cbn in Hi; [by injection Hi|done|by eapply IH].
Qed.

Section Requests.
Context {W : Type}.
Variable net : Transport W.
Variable py_str : value → string.

(** X7. Every run sends at most one task-creation request, so it creates
    at most one task; and a run that polls has sent that request first, to
    the task-creation address, with nothing but delays and status requests
    after it. *)
Theorem solve_single_submission
    self roblox_session blob proxy cookie max_retries d (w0 : W) :
  let tr := trace (solve_funcaptcha net py_str self roblox_session blob proxy cookie
                     max_retries d (start w0)).2 in
  posts tr ≤ 1
  ∧ (0 < polls tr →
     ∃ payload rest, tr = Request (POST create_url payload) :: rest ∧ posts rest = 0).
Proof.
  intros tr. subst tr.
  destruct (solve_trace_shape net py_str self roblox_session blob proxy cookie max_retries d w0)
    as [->|(payload & [->|(task_id & k & _ & ->)])].
  - split; [cbn; lia|]. cbn. lia.
  - split; [cbn; lia|]. cbn. lia.
  - split.
    + change (posts (?e :: ?l)) with (1 + posts l). rewrite posts_rounds. lia.
    + intros _. exists payload, (rounds d (result_url py_str task_id) k).
      split; [done|apply posts_rounds].
Qed.

(** X8. All status requests of a run go to one address, the result address
    of a single task identifier, carry no query parameters and do not go
    through a proxy, whatever proxy the client or the call was given: the
    proxy only travels inside the payload. *)
Theorem solve_polls_one_address_no_proxy
    self roblox_session blob proxy cookie max_retries d (w0 : W) :
  ∃ task_id, ∀ i url params via,
    trace (solve_funcaptcha net py_str self roblox_session blob proxy cookie
             max_retries d (start w0)).2 !! i = Some (Request (GET url params via)) →
    url = result_url py_str task_id ∧ params = ∅ ∧ via = None.
Proof.
  destruct (solve_trace_shape net py_str self roblox_session blob proxy cookie max_retries d w0)
    as [->|(payload & [->|(task_id & k & _ & ->)])].
  - exists JNull. by intros i.
  - exists JNull. by intros [|i].
  - exists task_id. intros [|i] url params via Hi; [done|]. cbn in Hi.
    apply rounds_lookup_request in Hi. by injection Hi as -> -> ->.
Qed.

(** X9. In every run there are as many delays as status requests, each
    delay lasts [retry_delay], and with [max_retries] non-negative there
    are at most [max_retries] of them: a run never waits after its last
    status request, and never waits more than [max_retries] times. *)
Theorem solve_delays_match_polls
    self roblox_session blob proxy cookie max_retries d (w0 : W) :
  let tr := trace (solve_funcaptcha net py_str self roblox_session blob proxy cookie
                     max_retries d (start w0)).2 in
  delays tr = polls tr
  ∧ (∀ i d', tr !! i = Some (Sleep d') → d' = d)
  ∧ ((0 ≤ max_retries)%Z → (Z.of_nat (delays tr) ≤ max_retries)%Z).
Proof.
  intros tr. subst tr.
  destruct (solve_trace_shape net py_str self roblox_session blob proxy cookie max_retries d w0)
    as [->|(payload & [->|(task_id & k & Hk & ->)])].
  - split_and!; [done|by intros i|cbn; lia].
  - split_and!; [done|by intros [|i]|cbn; lia].
  - change (delays (?e :: ?l)) with (delays l). change (polls (?e :: ?l)) with (polls l).
    rewrite delays_rounds, polls_rounds. split_and!; [done| |lia].
    intros [|i] d' Hi; [done|]. by eapply rounds_lookup_sleep.
Qed.

(** X10. With [max_retries] zero or negative, a run whose submission is
    accepted creates the task and returns [None] at once: it neither waits
    nor asks for the result. *)
Theorem solve_no_retries_no_poll
    self roblox_session blob proxy cookie max_retries d (w0 : W) payload task_id w1 :
  (max_retries ≤ 0)%Z →
  accepted net self roblox_session blob proxy cookie w0 = Some (payload, task_id, w1) →
  solve_funcaptcha net py_str self roblox_session blob proxy cookie max_retries d (start w0)
  = (Return JNull, {| world := w1; trace := [Request (POST create_url payload)] |}).
Proof.
  intros Hmax Hacc. rewrite (solve_accepted _ _ _ _ _ _ _ _ _ _ _ _ _ Hacc).
  replace (Z.to_nat max_retries) with 0 by lia. done.
Qed.

(** X11. When the submission is accepted and the answers to the status
    requests are pending bodies up to a first one with status [completed]
    and a [result.solution], reached within [max_retries] requests, the run
    returns that solution as it is, whatever kind of value it is, after one
    status request per pending answer and one more. *)
Theorem solve_completed_after_pending
    self roblox_session blob proxy cookie max_retries d (w0 : W)
    payload task_id w1 (vs : list value) c sol :
  accepted net self roblox_session blob proxy cookie w0 = Some (payload, task_id, w1) →
  Forall (λ v, pending v = true) vs →
  has_status "completed" c = true → nested_solution c = Some sol →
  answers net py_str task_id d w1 ((Body <$> vs) ++ [Body c]) →
  (Z.of_nat (length vs) < max_retries)%Z →
  let run := solve_funcaptcha net py_str self roblox_session blob proxy cookie
               max_retries d (start w0) in
  run.1 = Return sol
  ∧ trace run.2 = Request (POST create_url payload)
                  :: rounds d (result_url py_str task_id) (S (length vs)).
Proof.
  intros Hacc Hpend Hc Hsol Hans Hlen run.
  apply answers_app in Hans as [Hpre [Hlast _]]. rewrite length_fmap in Hlast.
  destruct (solve_pending_then net py_str self roblox_session blob proxy cookie max_retries
              d w0 payload task_id w1 vs Hacc Hpre Hpend Hlen) as [n Hrun].
  subst run. rewrite Hrun. erewrite poll_completed; [|exact Hlast|done..].
  cbn [fst snd round trace]. by rewrite rounds_snoc_cons.
Qed.

(** X12. A transport failure ends the run at once with the transport's own
    exception, [aiohttp.ClientError], as it was raised.  When the submission
    fails, it is the only request of the run; when a status request fails
    after pending answers, it is the last request of the run. *)
Theorem solve_transport_failure_halts
    self roblox_session blob proxy cookie max_retries d (w0 : W) payload :
  task_payload self roblox_session blob proxy cookie = Return payload →
  let run := solve_funcaptcha net py_str self roblox_session blob proxy cookie
               max_retries d (start w0) in
  (∀ msg w1,
     send net (POST create_url payload) w0 = (Fail msg, w1) →
     run.1 = Raise (ClientError msg) ∧ trace run.2 = [Request (POST create_url payload)]) ∧
  (∀ task_id w1 (vs : list value) msg,
     accepted net self roblox_session blob proxy cookie w0 = Some (payload, task_id, w1) →
     Forall (λ v, pending v = true) vs →
     answers net py_str task_id d w1 ((Body <$> vs) ++ [Fail msg]) →
     (Z.of_nat (length vs) < max_retries)%Z →
     run.1 = Raise (ClientError msg)
     ∧ trace run.2 = Request (POST create_url payload)
                     :: rounds d (result_url py_str task_id) (S (length vs))).
Proof.
  intros Hpl run. split.
  - intros msg w1 Hsend. subst run.
    by rewrite (solve_submission_failure net py_str _ _ _ _ _ _ _ _ _ _ _ Hpl Hsend).
  - intros task_id w1 vs msg Hacc Hpend Hans Hlen.
    by apply (solve_poll_failure net py_str self roblox_session blob proxy cookie
                max_retries d w0 payload task_id w1 vs msg).
Qed.

Lemma poll_not_a_dictionary task_id d n (s : @state W) v :
  reply net py_str task_id d (world s) = Body v →
  (∀ p, v ≠ JObj p) →
  poll net py_str task_id d (S n) s = (Raise TypeError, round net py_str task_id d s).
Proof.
  intros H Hv. cbn [poll].
  unfold mbind, M_bind, asyncio_sleep, request_json, lift, round.
  unfold reply, next in *. cbn [world trace].
  destruct (send net _ _) as [o w'] eqn:Hsend. cbn [fst snd] in *.
  rewrite <- ?app_assoc. cbn [app]. rewrite H.
  destruct v as [| | | | | |p]; try done. by destruct (Hv p).
Qed.

(** X13. A response body that is not a dictionary (a text, a list, a
    number, [null]) makes the run raise [TypeError]: as the answer to the
    submission, before any status request; as the answer to a status request
    after pending answers, with that request as the last one. *)
Theorem solve_body_not_a_dictionary
    self roblox_session blob proxy cookie max_retries d (w0 : W) payload v :
  task_payload self roblox_session blob proxy cookie = Return payload →
  (∀ p, v ≠ JObj p) →
  let run := solve_funcaptcha net py_str self roblox_session blob proxy cookie
               max_retries d (start w0) in
  (∀ w1,
     send net (POST create_url payload) w0 = (Body v, w1) →
     run.1 = Raise TypeError ∧ trace run.2 = [Request (POST create_url payload)]) ∧
  (∀ task_id w1 (vs : list value),
     accepted net self roblox_session blob proxy cookie w0 = Some (payload, task_id, w1) →
     Forall (λ v, pending v = true) vs →
     answers net py_str task_id d w1 ((Body <$> vs) ++ [Body v]) →
     (Z.of_nat (length vs) < max_retries)%Z →
     run.1 = Raise TypeError
     ∧ trace run.2 = Request (POST create_url payload)
                     :: rounds d (result_url py_str task_id) (S (length vs))).
Proof.
  intros Hpl Hv run. split.
  - intros w1 Hsend. subst run.
    unfold solve_funcaptcha, mbind, M_bind, lift, request_json, start.
    rewrite Hpl. cbn [world trace app]. rewrite Hsend.
    destruct v as [| | | |s|l|p]; cbn; try done.
    + by destruct (str_contains "error" s).
    + by destruct (existsb _ l).
    + by destruct (Hv p).
  - intros task_id w1 vs Hacc Hpend Hans Hlen.
    apply answers_app in Hans as [Hpre [Hlast _]]. rewrite length_fmap in Hlast.
    destruct (solve_pending_then net py_str self roblox_session blob proxy cookie max_retries
                d w0 payload task_id w1 vs Hacc Hpre Hpend Hlen) as [n Hrun].
    subst run. rewrite Hrun. erewrite poll_not_a_dictionary; [|exact Hlast|done].
    cbn [fst snd round trace]. by rewrite rounds_snoc_cons.
Qed.

(** *** The balance query *)

(** X14. Whatever the service answers, a balance query sends exactly one
    request and never a second one: a GET to the balance address with the
    API key as the [key] parameter, through the client-level proxy.  It adds
    that request to the trace and nothing else. *)
Theorem get_balance_single_request self (s : @state W) :
  let req := GET (BASE_URL +:+ "/getBalance") {[ "key" := Client.api_key self ]}
               (Client.proxy self) in
  (get_balance net self s).2
  = {| world := (send net req (world s)).2; trace := trace s ++ [Request req] |}.
Proof.
  intros req. subst req.
  unfold get_balance, except_ClientError, mbind, M_bind, lift, request_json, raise.
  destruct (send net _ (world s)) as [[data|msg|f] w']; cbn [fst snd];
    [|done|by destruct f].
  destruct (py_in "error" data) as [[|]|[]]; try done.
  - by destruct (py_getitem data "error") as [?|[]].
  - by destruct (py_getitem data "balance") as [?|[]].
Qed.

(** X15. A balance query never lets an [aiohttp.ClientError] through.
    When it raises [RoSolveException], the request failed with an
    [aiohttp.ClientError] and the message is [Connection error: ] followed by
    that error's own; when it raises [InvalidKey], the answer was a
    dictionary with an [error] field, whose value the exception carries. *)
Theorem get_balance_error_causes self (s : @state W) :
  let req := GET (BASE_URL +:+ "/getBalance") {[ "key" := Client.api_key self ]}
               (Client.proxy self) in
  (∀ msg, (get_balance net self s).1 ≠ Raise (ClientError msg))
  ∧ (∀ m, (get_balance net self s).1 = Raise (RoSolveException m) →
          ∃ msg, (send net req (world s)).1 = Fail msg ∧ m = "Connection error: " +:+ msg)
  ∧ (∀ arg, (get_balance net self s).1 = Raise (InvalidKey arg) →
            ∃ data, (send net req (world s)).1 = Body (JObj data)
                    ∧ data !! "error" = Some arg).
Proof.
  intros req. subst req.
  unfold get_balance, except_ClientError, mbind, M_bind, lift, request_json, raise.
  destruct (send net _ (world s)) as [[data|msg|f] w']; cbn [fst snd].
  - destruct data as [| | | |t|l|p]; cbn; try by split_and!.
    + by destruct (str_contains "error" t); split_and!.
    + by destruct (existsb _ l); split_and!.
    + destruct (p !! "error") as [err|] eqn:He.
      * rewrite bool_decide_eq_true_2 by done. cbn. split_and!; [done..|].
        intros arg [= <-]. by exists p.
      * rewrite bool_decide_eq_false_2 by (by intros [? ?]).
        by destruct (p !! "balance"); split_and!.
  - split_and!; [done| |done]. intros m [= <-]. by exists msg.
  - by destruct f; split_and!.
Qed.

(** X16. Answers without the documented fields: a dictionary with neither
    [error] nor [balance] makes the balance query raise [KeyError] on
    [balance], and a body that is not a dictionary makes it raise
    [TypeError], also when it is a text containing the word error. *)
Theorem get_balance_malformed_body self (s : @state W) v w' :
  send net (GET (BASE_URL +:+ "/getBalance") {[ "key" := Client.api_key self ]}
              (Client.proxy self)) (world s) = (Body v, w') →
  (∀ p, v = JObj p → p !! "error" = None → p !! "balance" = None →
        (get_balance net self s).1 = Raise (KeyError "balance"))
  ∧ ((∀ p, v ≠ JObj p) → (get_balance net self s).1 = Raise TypeError).
Proof.
  intros Hsend.
  unfold get_balance, except_ClientError, mbind, M_bind, lift, request_json, raise.
  rewrite Hsend. split.
  - intros p -> He Hb. cbn.
    rewrite bool_decide_eq_false_2 by (rewrite He; by intros [? ?]). by rewrite Hb.
  - intros Hv. destruct v as [| | | |t|l|p]; cbn; try done.
    + by destruct (str_contains "error" t).
    + by destruct (existsb _ l).
    + by destruct (Hv p).
Qed.

End Requests.

(** ** Further properties: what a run can raise *)

Lemma getitem_raises data key e :
  py_getitem data key = Raise e → (∃ k, e = KeyError k) ∨ e = TypeError.
Proof.
  destruct data as [| | | | | |p]; cbn; try (intros [= <-]; by auto).
  destruct (p !! key); [done|]. intros [= <-]. eauto.
Qed.

Section Raised.
Context {W : Type}.
Variable net : Transport W.
Variable py_str : value → string.

Lemma getitem_undocumented data key e :
  py_getitem data key = Raise e → documented e = false.
Proof. intros [[k ->]| ->]%getitem_raises; done. Qed.

Lemma poll_raises task_id d n (s : @state W) e :
  (poll net py_str task_id d n s).1 = Raise e → documented e = false.
Proof.
  revert s. induction n as [|n IH]; intros s; [done|].
  cbn [poll]. unfold mbind, M_bind, asyncio_sleep, request_json, lift. cbn [world trace].
  destruct (send net _ _) as [[v|msg|f] w']; cbn [fst snd];
    [|by intros [= <-]|intros [= <-]; by destruct f].
  destruct (py_getitem v "status") as [st|e0] eqn:Hst; cbn.
  2:{ intros [= <-]. by eapply getitem_undocumented. }
  destruct (py_eq_str st "completed").
  - destruct (py_getitem v "result") as [r|e0] eqn:Hres; cbn.
    2:{ intros [= <-]. by eapply getitem_undocumented. }
    destruct (py_getitem r "solution") as [sol|e0] eqn:Hsol; cbn; [done|].
    intros [= <-]. by eapply getitem_undocumented.
  - destruct (py_eq_str st "failed"); [done|]. apply IH.
Qed.

Lemma solve_raises
    self roblox_session blob proxy cookie max_retries d (w0 : W) e :
  let run := solve_funcaptcha net py_str self roblox_session blob proxy cookie
               max_retries d (start w0) in
  run.1 = Raise e →
  ((∃ msg, e = ProxyError msg) ∧ run.2 = start w0)
  ∨ (∃ arg payload data,
       e = TaskError arg ∧ trace run.2 = [Request (POST create_url payload)]
       ∧ (send net (POST create_url payload) w0).1 = Body (JObj data)
       ∧ data !! "error" = Some arg)
  ∨ documented e = false.
Proof.
  intros run. subst run.
  unfold solve_funcaptcha, mbind, M_bind, lift, request_json, raise, start.
  destruct (task_payload self roblox_session blob proxy cookie) as [payload|e0] eqn:Hpl.
  2:{ cbn. intros [= <-].
      destruct (task_payload_failure _ _ _ _ _ _ Hpl) as [[_ Hv]|[[-> _]|[-> _]]]; auto.
      destruct (validate_proxy_total proxy) as [(s & _ & _ & _ & Hs)|(msg & Hmsg & _)];
        [congruence|].
      rewrite Hmsg in Hv. injection Hv as <-. left. eauto. }
  cbn [world trace app].
  destruct (send net _ w0) as [[data|msg|f] w1] eqn:Hsend; cbn [fst snd];
    [|intros [= <-]; auto|intros [= <-]; right; right; by destruct f].
  destruct (py_in "error" data) as [[|]|e0] eqn:Hin.
  - destruct (py_getitem data "error") as [err|e0] eqn:Herr; cbn.
    + intros [= <-]. right. left.
      destruct data as [| | | | | |fields]; try discriminate. cbn in Herr.
      destruct (fields !! "error") as [err'|] eqn:He; [|done]. injection Herr as ->.
      exists err, payload, fields. by rewrite Hsend.
    + intros [= <-]. right. right. by eapply getitem_undocumented.
  - destruct (py_getitem data "taskId") as [task_id|e0] eqn:Htid; cbn.
    + intros Hraise. right. right. by eapply poll_raises.
    + intros [= <-]. right. right. by eapply getitem_undocumented.
  - cbn. intros [= <-]. right. right.
    destruct data; cbn in Hin; try discriminate; by injection Hin as <-.
Qed.

(** X19. Where the client's own exceptions come from in a run.  [ProxyError]
    is raised only before anything is sent, with the state as it was at the
    start; [TaskError] only when the submission was answered by a dictionary
    with an [error] field, whose value it carries, and with the submission as
    the one request of the run, so never after a status request.  A run
    never raises [InvalidKey] or [RoSolveException]. *)
Theorem solve_error_causes
    self roblox_session blob proxy cookie max_retries d (w0 : W) :
  let run := solve_funcaptcha net py_str self roblox_session blob proxy cookie
               max_retries d (start w0) in
  (∀ msg, run.1 = Raise (ProxyError msg) → run.2 = start w0)
  ∧ (∀ arg, run.1 = Raise (TaskError arg) →
            ∃ payload data,
              trace run.2 = [Request (POST create_url payload)]
              ∧ (send net (POST create_url payload) w0).1 = Body (JObj data)
              ∧ data !! "error" = Some arg)
  ∧ (∀ arg, run.1 ≠ Raise (InvalidKey arg))
  ∧ (∀ msg, run.1 ≠ Raise (RoSolveException msg)).
Proof.
  intros run.
  split_and!; [intros msg Hr|intros arg Hr|intros arg Hr|intros msg Hr];
    destruct (solve_raises self roblox_session blob proxy cookie max_retries d w0 _ Hr)
      as [[[msg' He] Hst]|[(arg' & payload & data & He & Htr & Hsend & Hdata)|Hdoc]];
    try done.
  injection He as <-. by exists payload, data.
Qed.

End Raised.

(** ** Further properties: the lifetime of the session *)

Section SessionLifetime.
Context {W : Type}.
Variable session : SessionHandle W.

Lemma close_outcome self (s : @state W) :
  (∀ w, session_closed session (session_close session w) = true) →
  (close session self s).1 = Return ()
  ∧ session_closed session (world (close session self s).2) = true
  ∧ trace (close session self s).2 = trace s.
Proof.
  intros Hclosed. unfold close, session_close_call.
  destruct (session_closed session (world s)) eqn:Hc; cbn; [done|].
  by rewrite Hclosed.
Qed.

(** X17. Provided a session reports [closed] once its [close()] has run,
    [close] leaves the session closed and sends nothing; it is safe to call
    again, the second call changing nothing at all; and on a session that is
    already closed it does not call the session's [close()]. *)
Theorem close_once self (s : @state W) :
  (∀ w, session_closed session (session_close session w) = true) →
  let s1 := (close session self s).2 in
  session_closed session (world s1) = true
  ∧ trace s1 = trace s
  ∧ close session self s1 = (Return (), s1)
  ∧ (session_closed session (world s) = true → s1 = s).
Proof.
  intros Hclosed s1.
  destruct (close_outcome self s Hclosed) as (_ & Hc & Htr).
  fold s1 in Hc, Htr. split_and!; [done|done| |].
  - clearbody s1. unfold close. by rewrite Hc.
  - intros Hs. subst s1. unfold close. by rewrite Hs.
Qed.

(** X18. Used as a context manager, the client closes its session on every
    way out of the block and swallows nothing: when the block returns, the
    statement yields its value; when the block raises, the same exception is
    raised again; in both cases the session is closed afterwards and the
    requests sent are those of the block. *)
Theorem async_with_closes_and_propagates {A} self (body : Client.t → @M W A) (s : @state W) :
  (∀ w, session_closed session (session_close session w) = true) →
  let inner := body self s in
  let run := async_with session self body s in
  session_closed session (world run.2) = true
  ∧ trace run.2 = trace inner.2
  ∧ run.1 = match inner.1 with
            | Return a => Return (Some a)
            | Raise e => Raise e
            end.
Proof.
  intros Hclosed inner run. subst inner run.
  unfold async_with, __aenter__, __aexit__, mbind, M_bind, mret, M_ret.
  destruct (body self s) as [[a|e] s2]; cbn [fst snd];
    destruct (close_outcome self s2 Hclosed) as (Hr & Hc & Htr);
    destruct (close session self s2) as [[[]|e'] s3]; cbn [fst snd] in *; done.
Qed.

End SessionLifetime.

(** ** The further properties on scripted services *)

Lemma solve_no_retries_no_poll_witness :
  solve_funcaptcha (steady (Body (task_body "t1")) (Body (completed_body "S"))) no_repr
    plain_client browser "blob" JNull "" (-1) 1%float (start ())
  = (Return JNull, {| world := (); trace := [Request (POST create_url example_payload)] |}).
Proof.
  apply (solve_no_retries_no_poll
           (steady (Body (task_body "t1")) (Body (completed_body "S"))) no_repr
           plain_client browser "blob" JNull "" (-1)%Z 1%float ()
           example_payload (JStr "t1") ()).
  - lia.
  - reflexivity.
Defined.

Lemma solve_completed_after_pending_witness :
  (solve_funcaptcha (steady (Body (task_body "t1")) (Body (completed_body "S"))) no_repr
     plain_client browser "blob" JNull "" 60 1%float (start ())).1
  = Return (JStr "S").
Proof.
  apply (solve_completed_after_pending
           (steady (Body (task_body "t1")) (Body (completed_body "S"))) no_repr
           plain_client browser "blob" JNull "" 60%Z 1%float ()
           example_payload (JStr "t1") () [] (completed_body "S") (JStr "S")).
  - reflexivity.
  - constructor.
  - reflexivity.
  - reflexivity.
  - cbn. auto.
  - cbn. lia.
Defined.

Lemma solve_transport_failure_halts_witness :
  (solve_funcaptcha (steady (Fail "connection refused") (Body processing)) no_repr
     plain_client browser "blob" JNull "" 60 1%float (start ())).1
  = Raise (ClientError "connection refused").
Proof.
  apply (proj1 (solve_transport_failure_halts
                  (steady (Fail "connection refused") (Body processing)) no_repr
                  plain_client browser "blob" JNull "" 60%Z 1%float ()
                  example_payload eq_refl) "connection refused" ()).
  reflexivity.
Defined.

Lemma solve_body_not_a_dictionary_witness :
  (solve_funcaptcha (steady (Body (JStr "internal error")) (Body processing)) no_repr
     plain_client browser "blob" JNull "" 60 1%float (start ())).1
  = Raise TypeError.
Proof.
  apply (proj1 (solve_body_not_a_dictionary
                  (steady (Body (JStr "internal error")) (Body processing)) no_repr
                  plain_client browser "blob" JNull "" 60%Z 1%float ()
                  example_payload (JStr "internal error") eq_refl
                  ltac:(discriminate)) ()).
  reflexivity.
Defined.

Lemma get_balance_malformed_body_witness :
  (get_balance (steady (Fail "down") (Body (JStr "server error"))) plain_client (start ())).1
  = Raise TypeError.
Proof.
  apply (proj2 (get_balance_malformed_body
                  (steady (Fail "down") (Body (JStr "server error"))) plain_client
                  (start ()) (JStr "server error") () eq_refl)).
  discriminate.
Defined.

Lemma close_once_witness :
  close flag_session plain_client (close flag_session plain_client (start false)).2
  = (Return (), (close flag_session plain_client (start false)).2).
Proof.
  apply (close_once flag_session plain_client (start false)).
  reflexivity.
Defined.

Lemma async_with_closes_and_propagates_witness :
  (async_with flag_session plain_client
     (get_balance (flag_service (Fail "down") (Body (error_body "bad key"))))
     (start false)).1
  = Raise (InvalidKey (JStr "bad key")).
Proof.
  apply (async_with_closes_and_propagates flag_session plain_client
           (get_balance (flag_service (Fail "down") (Body (error_body "bad key"))))
           (start false)).
  reflexivity.
Defined.
